(** * The password modify extended operation (RFC 3062) of package ldap

    A shallow embedding of [PasswordModifyRequest.encode] and
    [Conn.PasswordModify] and the properties of the request payload and of
    the response interpretation.

    Layout:
    - [Ber]: the packet tree of the asn1-ber package and its constructors;
    - [Env]: what the two functions consume from the rest of package ldap,
      from asn1-ber's serialiser and from the connection;
    - [PasswordModifyRequest], [PasswordModifyResult], [encode],
      [PasswordModify];
    - [Scripted]: one connection and codec on which the model runs;
    - the theorems, and their instances on the scripted connection. *)

From Stdlib Require Import ZArith List Bool Lia.
From Stdlib.Strings Require Import String Ascii Byte.
From Stdlib Require Import DecimalString DecimalZ DecimalPos Sorted.
Import ListNotations.

Set Warnings "-register-all".

Local Open Scope string_scope.
Local Open Scope Z_scope.
Local Open Scope list_scope.

(** ** The packet tree of asn1-ber

    The package gopkg.in/asn1-ber.v1 is imported by the sources and is not
    among them.  Its packet type and the constructors the sources call are
    modelled here; its serialiser and its parser are left abstract in
    [Env]. *)

Module Ber.

(** Modelled from the spec: [ber.Class], the class of a node (universal,
    application, context; private completes the two bits of BER). *)
Inductive Class : Type :=
| ClassUniversal
| ClassApplication
| ClassContext
| ClassPrivate.

(** Modelled from the spec: [ber.Type], the primitive-or-constructed flag. *)
Inductive BerType : Type :=
| TypePrimitive
| TypeConstructed.

(** Modelled from the spec: [ber.Tag], the tag number, an unsigned integer. *)
Definition BerTag : Type := Z.

(** The universal tags of INTEGER and SEQUENCE. *)
Definition TagInteger : BerTag := 2.
Definition TagSequence : BerTag := 16.

(** Modelled from the spec: the optional scalar value of a node,
    [Packet.Value], an [interface{}] in the sources: [VNil] is the nil
    interface, the others are values of Go's string, int64 and bool. *)
Inductive BerValue : Type :=
| VNil
| VString (s : string)
| VInt64 (n : Z)
| VBool (b : bool).

(** Modelled from the spec: [ber.Packet], the tagged binary node: class,
    flag, tag number, optional scalar value, ordered children; [Data] is the
    content of the node's byte buffer (its raw bytes), [Description] the
    label the constructors take. *)
Inductive Packet : Type := mkPacket {
  ClassType : Class;
  TagType : BerType;
  Tag : BerTag;
  Value : BerValue;
  Data : list byte;
  Children : list Packet;
  Description : string
}.

(** Modelled from the spec: [ber.Encode] (build node) at a nil value, the
    only way the sources call it: an empty buffer, no children, a nil
    [Value]. *)
Definition Encode (c : Class) (t : BerType) (tag : BerTag) (description : string)
  : Packet :=
  {| ClassType := c; TagType := t; Tag := tag; Value := VNil;
     Data := []; Children := []; Description := description |}.

(** Modelled from the spec: [ber.NewString] (build a scalar node): [Encode]
    at nil, then the value is stored and its bytes written to the buffer. *)
Definition NewString (c : Class) (t : BerType) (tag : BerTag) (value : string)
           (description : string) : Packet :=
  let p := Encode c t tag description in
  {| ClassType := ClassType p; TagType := TagType p; Tag := Tag p;
     Value := VString value;
     Data := Data p ++ list_byte_of_string value;
     Children := Children p; Description := Description p |}.

End Ber.
Import Ber.

(** ** Go run-time outcomes *)

(** The run-time panics the two functions can raise. *)
Inductive panic : Type :=
| IndexOutOfRange      (* s[i] with i >= len(s) *)
| TypeAssertion        (* x.(T) on a value of another dynamic type *)
| NilDereference.      (* a field read through a nil pointer *)

(** A computation that either goes on with a value or panics. *)
Inductive Run (A : Type) : Type :=
| Ok (a : A)
| Panic (p : panic).
Arguments Ok {A} a.
Arguments Panic {A} p.

Definition bind {A B : Type} (m : Run A) (k : A -> Run B) : Run B :=
  match m with
  | Ok a => k a
  | Panic p => Panic p
  end.

Notation "x <- m ;; k" := (bind m (fun x => k))
  (at level 61, m at next level, right associativity).

(** [xs[i]]. *)
Definition index {A : Type} (xs : list A) (i : nat) : Run A :=
  match nth_error xs i with
  | Some x => Ok x
  | None => Panic IndexOutOfRange
  end.

(** [v.(string)]. *)
Definition assertString (v : BerValue) : Run string :=
  match v with
  | VString s => Ok s
  | _ => Panic TypeAssertion
  end.

(** [p.f] through a pointer [p] that may be nil. *)
Definition deref {A : Type} (p : option A) : Run A :=
  match p with
  | Some a => Ok a
  | None => Panic NilDereference
  end.

(** [for _, x := range xs { body }] over a loop state [s]. *)
Fixpoint forRange {A S : Type} (xs : list A) (body : A -> S -> Run S) (s : S)
  : Run S :=
  match xs with
  | [] => Ok s
  | x :: rest => s' <- body x s ;; forRange rest body s'
  end.

(** ** What the file consumes from elsewhere *)

(** [messageContext]: its id, and what the single receive on its [responses]
    channel yields ([None]: the channel was closed). *)
Record messageContext (PacketResponse : Type) : Type := {
  id : Z;
  responses : option PacketResponse
}.
Arguments id {PacketResponse} _.
Arguments responses {PacketResponse} _.

(** The rest of package ldap, the connection and the asn1-ber codec, as the
    two functions see them.  Nothing is assumed about these beyond their
    types: every theorem holds for all of them.  Each is taken where it
    returns: a panic raised inside one of them is outside the model.  A Go
    [error] that may be nil is an [option error]; a pointer that may be nil
    is an [option]. *)
Class Env : Type := {
  (* types of package ldap *)
  Conn : Type;
  error : Type;
  PacketResponse : Type;
  (* constants of package ldap *)
  ApplicationExtendedRequest : BerTag;
  ApplicationExtendedResponse : BerTag;
  LDAPResultReferral : Z;
  ErrorNetwork : Z;
  ErrorUnexpectedResponse : Z;
  (* errors *)
  errors_New : string -> error;
  NewError : Z -> error -> error;
  GetLDAPError : Packet -> option error;
  IsErrorWithCode : error -> Z -> bool;
  (* the connection; each call may change its state *)
  Debug : Conn -> bool;
  nextMessageID : Conn -> Z * Conn;
  sendMessage : Conn -> Packet -> (messageContext PacketResponse + error) * Conn;
  finishMessage : Conn -> messageContext PacketResponse -> Conn;
  ReadPacket : PacketResponse -> option Packet * option error;
  (* debugging: the descriptions it writes are never read back here, only
     its error is kept *)
  addLDAPDescriptions : Packet -> option error;
  (* asn1-ber codec *)
  Bytes : Packet -> list byte;
  encodeInteger : Z -> list byte;
  DecodePacket : list byte -> option Packet;
  DecodeString : list byte -> string
}.

(** ** The data model *)

Definition passwordModifyOID : string := "1.3.6.1.4.1.4203.1.11.1".

Record PasswordModifyRequest : Type := {
  UserIdentity : string;
  OldPassword : string;
  NewPassword : string
}.

Record PasswordModifyResult : Type := {
  GeneratedPassword : string;
  Referral : string
}.

(** [NewPasswordModifyRequest]. *)
Definition NewPasswordModifyRequest (userIdentity oldPassword newPassword : string)
  : PasswordModifyRequest :=
  {| UserIdentity := userIdentity;
     OldPassword := oldPassword;
     NewPassword := newPassword |}.

(** What a call of [PasswordModify] ends in: [Ok (result, err)] is the
    returned pair, a nil result being [None] and a nil error [None];
    [Panic p] is a run-time panic. *)
Definition Outcome (error : Type) : Type :=
  Run (option PasswordModifyResult * option error).

(** [fmt]'s [%d] of an integer. *)
Definition fmt_d (n : Z) : string := NilZero.string_of_int (Z.to_int n).

Section Operation.
Context {E : Env}.

(** Modelled from the spec: [ber.NewInteger], as [NewString] with the
    integer's content octets. *)
Definition NewInteger (c : Class) (t : BerType) (tag : BerTag) (value : Z)
           (description : string) : Packet :=
  let p := Encode c t tag description in
  {| ClassType := ClassType p; TagType := TagType p; Tag := Tag p;
     Value := VInt64 value;
     Data := Data p ++ encodeInteger value;
     Children := Children p; Description := Description p |}.

(** Modelled from the spec: [Packet.AppendChild] (append child): the child's
    serialisation, as it is at this moment, goes to the parent's buffer and
    the child to the end of the ordered children. *)
Definition AppendChild (p child : Packet) : Packet :=
  {| ClassType := ClassType p; TagType := TagType p; Tag := Tag p;
     Value := Value p;
     Data := Data p ++ Bytes child;
     Children := Children p ++ [child];
     Description := Description p |}.

(** [PasswordModifyRequest.encode]. *)
Definition encode (r : PasswordModifyRequest) : Packet * option error :=
  let request :=
    Encode ClassApplication TypeConstructed ApplicationExtendedRequest
           "Password Modify Extended Operation" in
  let request :=
    AppendChild request
      (NewString ClassContext TypePrimitive 0 passwordModifyOID
                 "Extended Request Name: Password Modify OID") in
  let extendedRequestValue :=
    Encode ClassContext TypePrimitive 1
           "Extended Request Value: Password Modify Request" in
  let passwordModifyRequestValue :=
    Encode ClassUniversal TypeConstructed TagSequence "Password Modify Request" in
  let passwordModifyRequestValue :=
    if negb (UserIdentity r =? "")%string then
      AppendChild passwordModifyRequestValue
        (NewString ClassContext TypePrimitive 0 (UserIdentity r) "User Identity")
    else passwordModifyRequestValue in
  let passwordModifyRequestValue :=
    if negb (OldPassword r =? "")%string then
      AppendChild passwordModifyRequestValue
        (NewString ClassContext TypePrimitive 1 (OldPassword r) "Old Password")
    else passwordModifyRequestValue in
  let passwordModifyRequestValue :=
    if negb (NewPassword r =? "")%string then
      AppendChild passwordModifyRequestValue
        (NewString ClassContext TypePrimitive 2 (NewPassword r) "New Password")
    else passwordModifyRequestValue in
  let extendedRequestValue :=
    AppendChild extendedRequestValue passwordModifyRequestValue in
  let request := AppendChild request extendedRequestValue in
  (request, None).

(** The body of the loop of lines 132-136: a child tagged 3 overwrites
    [result.Referral] with its first child's value, asserted a string. *)
Definition referralBody (child : Packet) (result : PasswordModifyResult)
  : Run PasswordModifyResult :=
  if Tag child =? 3 then
    first <- index (Children child) 0 ;;
    referral <- assertString (Value first) ;;
    Ok {| GeneratedPassword := GeneratedPassword result; Referral := referral |}
  else Ok result.

(** The body of the loop of lines 145-154: a child tagged 11 has its buffer
    parsed again; a tree of exactly one child, tagged 0, overwrites
    [result.GeneratedPassword]. *)
Definition valueBody (child : Packet) (result : PasswordModifyResult)
  : Run PasswordModifyResult :=
  if Tag child =? 11 then
    passwordModifyResponseValue <- deref (DecodePacket (Data child)) ;;
    match Children passwordModifyResponseValue with
    | [only] =>
        if Tag only =? 0 then
          Ok {| GeneratedPassword := DecodeString (Data only);
                Referral := Referral result |}
        else Ok result
    | _ => Ok result
    end
  else Ok result.

(** [fmt.Errorf("unexpected Response: %d", tag)]. *)
Definition unexpectedResponse (tag : BerTag) : error :=
  errors_New ("unexpected Response: " ++ fmt_d tag)%string.

(** Lines 128-156 of [PasswordModify]: what is done with the packet read from
    the connection, [result] being the value allocated at line 104. *)
Definition interpretResponse (packet : Packet) (result : PasswordModifyResult)
  : Outcome error :=
  response <- index (Children packet) 1 ;;
  if Tag response =? ApplicationExtendedResponse then
    match GetLDAPError packet with
    | Some err =>
        if IsErrorWithCode err LDAPResultReferral then
          result <- forRange (Children response) referralBody result ;;
          Ok (Some result, Some err)
        else Ok (Some result, Some err)
    | None =>
        (* line 144 reads packet.Children[1] again: the same child *)
        let extendedResponse := response in
        result <- forRange (Children extendedResponse) valueBody result ;;
        Ok (Some result, None)
    end
  else
    Ok (None, Some (NewError ErrorUnexpectedResponse
                             (unexpectedResponse (Tag response)))).

(** [Conn.PasswordModify].  The connection is threaded through the calls that
    may change it; [finishMessage] is deferred, so it runs on every way out
    once [sendMessage] has succeeded, a panic included.  [Debugf],
    [DebugPacket] and [ber.PrintPacket] only write to the debug log. *)
Definition PasswordModify (l : Conn) (passwordModifyRequest : PasswordModifyRequest)
  : Outcome error * Conn :=
  let packet := Encode ClassUniversal TypeConstructed TagSequence "LDAP Request" in
  let '(messageID, l) := nextMessageID l in
  let packet :=
    AppendChild packet
      (NewInteger ClassUniversal TypePrimitive TagInteger messageID "MessageID") in
  match encode passwordModifyRequest with
  | (_, Some err) => (Ok (None, Some err), l)
  | (encodedPasswordModifyRequest, None) =>
      let packet := AppendChild packet encodedPasswordModifyRequest in
      match sendMessage l packet with
      | (inr err, l) => (Ok (None, Some err), l)
      | (inl msgCtx, l) =>
          let result := {| GeneratedPassword := ""; Referral := "" |} in
          let outcome :=
            match responses msgCtx with
            | None =>
                Ok (None, Some (NewError ErrorNetwork
                                  (errors_New "ldap: response channel closed")))
            | Some packetResponse =>
                match ReadPacket packetResponse with
                | (_, Some err) => Ok (None, Some err)
                | (None, None) =>
                    Ok (None, Some (NewError ErrorNetwork
                                      (errors_New "ldap: could not retrieve message")))
                | (Some packet, None) =>
                    match (if Debug l then addLDAPDescriptions packet else None) with
                    | Some err => Ok (None, Some err)
                    | None => interpretResponse packet result
                    end
                end
            end in
          (outcome, finishMessage l msgCtx)
      end
  end.

(** *** Vocabulary of the statements *)

(** The three optional fields of a request with their context tags, in the
    order of the struct. *)
Definition fields (r : PasswordModifyRequest) : list (BerTag * string) :=
  [(0, UserIdentity r); (1, OldPassword r); (2, NewPassword r)].

(** The universal sequence inside an extended request: the only child of the
    request's second child (the request value). *)
Definition innerSequence (request : Packet) : option Packet :=
  match Children request with
  | [_; extendedRequestValue] =>
      match Children extendedRequestValue with
      | [sequence] => Some sequence
      | _ => None
      end
  | _ => None
  end.

(** What is observable of a scalar child. *)
Definition scalar (c : Packet) : Class * BerType * BerTag * BerValue * list Packet :=
  (ClassType c, TagType c, Tag c, Value c, Children c).

(** The result allocated at line 104. *)
Definition emptyResult : PasswordModifyResult :=
  {| GeneratedPassword := ""; Referral := "" |}.

(** The message of lines 87-94: the LDAP request sent for [r] under
    [messageID]. *)
Definition ldapRequest (messageID : Z) (r : PasswordModifyRequest) : Packet :=
  AppendChild
    (AppendChild
       (Encode ClassUniversal TypeConstructed TagSequence "LDAP Request")
       (NewInteger ClassUniversal TypePrimitive TagInteger messageID "MessageID"))
    (fst (encode r)).

(** The call [PasswordModify l r] gets [packet] as its response: the message
    was sent, the response channel yielded a packet response, reading it gave
    [packet] without error, and debugging is off or has annotated the packet
    without error.  This is the way to line 128. *)
Definition delivered (l : Conn) (r : PasswordModifyRequest) (packet : Packet)
  : Prop :=
  exists msgCtx packetResponse l',
    sendMessage (snd (nextMessageID l)) (ldapRequest (fst (nextMessageID l)) r)
      = (inl msgCtx, l') /\
    responses msgCtx = Some packetResponse /\
    ReadPacket packetResponse = (Some packet, None) /\
    (Debug l' = false \/ addLDAPDescriptions packet = None).

(** The string carried by the first child of [c], when [c] has a child and
    that child's value is a string. *)
Definition firstString (c : Packet) : option string :=
  match Children c with
  | first :: _ =>
      match Value first with
      | VString s => Some s
      | _ => None
      end
  | [] => None
  end.

End Operation.

(** *** Vocabulary of the further statements *)

Section Shapes.
Context {E : Env}.

(** What the first send of [PasswordModify l r] answers: the message is the
    LDAP request under the id taken from the connection. *)
Definition sent (l : Conn) (r : PasswordModifyRequest)
  : (messageContext PacketResponse + error) * Conn :=
  sendMessage (snd (nextMessageID l)) (ldapRequest (fst (nextMessageID l)) r).

(** A child tagged 3 carries a string in its first child. *)
Definition referralsCarryStrings (children : list Packet) : Prop :=
  Forall (fun c => Tag c = 3 -> firstString c <> None) children.

(** The content of a child tagged 11 parses to a tree. *)
Definition valuesParse (children : list Packet) : Prop :=
  Forall (fun c => Tag c = 11 -> DecodePacket (Data c) <> None) children.

(** The content of a child tagged 11 parses to a tree that is not a single
    child tagged 0. *)
Definition valuesOfOtherShape (children : list Packet) : Prop :=
  Forall (fun c =>
            Tag c = 11 ->
            exists tree,
              DecodePacket (Data c) = Some tree /\
              forall only, Children tree = [only] -> Tag only <> 0) children.

(** The envelopes lines 128-156 go through without a panic: there is a second
    child and, when it is tagged as an extended response, the children that
    the loop of the case at hand reads are as the loop expects them: on a
    referral every child tagged 3 carries a string, on a success every
    child tagged 11 parses.  Another failure reads no child. *)
Definition interpretable (packet : Packet) : Prop :=
  exists response,
    nth_error (Children packet) 1 = Some response /\
    (Tag response = ApplicationExtendedResponse ->
     match GetLDAPError packet with
     | Some err =>
         IsErrorWithCode err LDAPResultReferral = true ->
         referralsCarryStrings (Children response)
     | None => valuesParse (Children response)
     end).

End Shapes.

(** ** A scripted connection

    One inhabitant of [Env], on which the model runs: the connection answers
    every message with a reply fixed in advance, errors are plain data, and
    the codec is the definite-length, single-octet-header subset of BER.  It
    serves to evaluate [PasswordModify] on concrete envelopes. *)

Module Scripted.

(** Error values: [errors.New]'s, and the package's [*Error] with its result
    code. *)
Inductive err : Type :=
| errorString (msg : string)
| ldapError (resultCode : Z) (cause : err).

(** A connection: the debug flag, the next message id, the reply the
    transport will give ([None]: the channel is closed without a value), and
    the ids of the finished message contexts. *)
Record conn : Type := {
  connDebug : bool;
  connNextID : Z;
  connReply : option (option Packet * option err);
  connFinished : list Z
}.

Definition byteOfZ (z : Z) : byte :=
  match Byte.of_N (Z.to_N (z mod 256)) with
  | Some b => b
  | None => x00
  end.

Definition classBits (c : Class) : Z :=
  match c with
  | ClassUniversal => 0
  | ClassApplication => 64
  | ClassContext => 128
  | ClassPrivate => 192
  end.

Definition classOfBits (z : Z) : Class :=
  if z <? 64 then ClassUniversal
  else if z <? 128 then ClassApplication
  else if z <? 192 then ClassContext
  else ClassPrivate.

(** Identifier octet, length octet, content. *)
Definition serialise (p : Packet) : list byte :=
  byteOfZ (classBits (ClassType p)
           + (match TagType p with TypePrimitive => 0 | TypeConstructed => 32 end)
           + Tag p)
  :: byteOfZ (Z.of_nat (List.length (Data p)))
  :: Data p.

(** The packets serialised one after the other in [bs]; the content of a
    constructed packet is read as its children, the content of a universal
    octet string as its string value. *)
Fixpoint readPackets (fuel : nat) (bs : list byte) : list Packet :=
  match fuel with
  | O => []
  | S fuel =>
      match bs with
      | identifier :: len :: rest =>
          let i := Z.of_N (Byte.to_N identifier) in
          let n := N.to_nat (Byte.to_N len) in
          let content := firstn n rest in
          let c := classOfBits i in
          let constructed := Z.testbit i 5 in
          let tag := Z.land i 31 in
          {| ClassType := c;
             TagType := if constructed then TypeConstructed else TypePrimitive;
             Tag := tag;
             Value :=
               match c, constructed with
               | ClassUniversal, false =>
                   if tag =? 4 then VString (string_of_list_byte content)
                   else VNil
               | _, _ => VNil
               end;
             Data := content;
             Children := if constructed then readPackets fuel content else [];
             Description := "" |}
          :: readPackets fuel (skipn n rest)
      | _ => []
      end
  end.

(** Modelled from the spec: the protocol result-code classifier
    ([GetLDAPError], in a file of the package that is not among the sources),
    which returns a structured error if the result code is not success, else
    nothing.  The result code is the integer value of the first of the
    response's children, 0 being success. *)
Definition classify (packet : Packet) : option err :=
  match nth_error (Children packet) 1 with
  | Some response =>
      match Children response with
      | code :: _ :: _ :: _ =>
          match Value code with
          | VInt64 0 => None
          | VInt64 n => Some (ldapError n (errorString "LDAP Result"))
          | _ => Some (ldapError 200 (errorString "Invalid packet format"))
          end
      | _ => Some (ldapError 200 (errorString "Invalid packet format"))
      end
  | None => Some (ldapError 200 (errorString "Invalid packet format"))
  end.

Definition env : Env := {|
  Conn := conn;
  error := err;
  PacketResponse := option Packet * option err;
  ApplicationExtendedRequest := 23;
  ApplicationExtendedResponse := 24;
  LDAPResultReferral := 10;
  ErrorNetwork := 200;
  ErrorUnexpectedResponse := 205;
  errors_New := errorString;
  NewError := ldapError;
  GetLDAPError := classify;
  IsErrorWithCode :=
    fun e code =>
      match e with
      | ldapError c _ => c =? code
      | errorString _ => false
      end;
  Debug := connDebug;
  nextMessageID :=
    fun l =>
      (connNextID l,
       {| connDebug := connDebug l; connNextID := connNextID l + 1;
          connReply := connReply l; connFinished := connFinished l |});
  sendMessage :=
    fun l _ => (inl {| id := connNextID l - 1; responses := connReply l |}, l);
  finishMessage :=
    fun l msgCtx =>
      {| connDebug := connDebug l; connNextID := connNextID l;
         connReply := connReply l;
         connFinished := id msgCtx :: connFinished l |};
  ReadPacket := fun packetResponse => packetResponse;
  addLDAPDescriptions :=
    fun packet =>
      if (List.length (Children packet) <? 2)%nat
      then Some (ldapError 203
                   (errorString "ldap: cannot process packet to add descriptions"))
      else None;
  Bytes := serialise;
  encodeInteger := fun n => [byteOfZ n];
  DecodePacket := fun bs => hd_error (readPackets (List.length bs) bs);
  DecodeString := string_of_list_byte
|}.

(** A connection, debugging off, that answers with [packet]. *)
Definition answering (packet : Packet) : @Conn env :=
  {| connDebug := false; connNextID := 1;
     connReply := Some (Some packet, None); connFinished := [] |}.

(** A packet as the reader leaves it: no description. *)
Definition node (c : Class) (t : BerType) (tag : BerTag) (v : BerValue)
           (data : list byte) (children : list Packet) : Packet :=
  {| ClassType := c; TagType := t; Tag := tag; Value := v; Data := data;
     Children := children; Description := "" |}.

Definition octetString (s : string) : Packet :=
  node ClassUniversal TypePrimitive 4 (VString s) (list_byte_of_string s) [].

Definition enumerated (n : Z) : Packet :=
  node ClassUniversal TypePrimitive 10 (VInt64 n) [byteOfZ n] [].

(** A response envelope: the message id, then [operation]. *)
Definition envelope (operation : list Packet) : Packet :=
  node ClassUniversal TypeConstructed 16 VNil []
       (node ClassUniversal TypePrimitive 2 (VInt64 1) [byteOfZ 1] [] :: operation).

(** An extended response with result code [code], empty matched DN and
    diagnostic message, followed by [more]. *)
Definition extendedResponse (code : Z) (more : list Packet) : Packet :=
  node ClassApplication TypeConstructed 24 VNil []
       (enumerated code :: octetString "" :: octetString "" :: more).

(** The referral element: context tag 3, holding URIs. *)
Definition referralElement (uris : list string) : Packet :=
  node ClassContext TypeConstructed 3 VNil [] (map octetString uris).

(** The response value: context tag 11, whose content is the serialisation
    of [inner]. *)
Definition responseValue (inner : Packet) : Packet :=
  node ClassContext TypePrimitive 11 VNil (serialise inner) [].

(** A sequence with its children serialised into its content. *)
Definition sequenceOf (children : list Packet) : Packet :=
  node ClassUniversal TypeConstructed 16 VNil
       (List.concat (map serialise children)) children.

(** A context-class primitive holding the bytes of [s]. *)
Definition contextString (tag : BerTag) (s : string) : Packet :=
  node ClassContext TypePrimitive tag VNil (list_byte_of_string s) [].

(** The request of the examples: only a new password. *)
Definition request : PasswordModifyRequest :=
  NewPasswordModifyRequest "" "" "NewPass1".

(** Only the message id: no operation in the envelope. *)
Definition shortEnvelope : Packet := envelope [].

(** Result code 49 (invalid credentials), a failure that is no referral. *)
Definition failureEnvelope : Packet := envelope [extendedResponse 49 []].

(** Result code 10 (referral) with one referral element. *)
Definition referralEnvelope : Packet :=
  envelope [extendedResponse 10 [referralElement ["ldap://a"]]].

(** Result code 10 with two referral elements. *)
Definition twoReferralsEnvelope : Packet :=
  envelope [extendedResponse 10
              [referralElement ["ldap://a"]; referralElement ["ldap://b"]]].

(** Success, the value holding a sequence of one string tagged 0. *)
Definition generatedEnvelope : Packet :=
  envelope [extendedResponse 0
              [responseValue (sequenceOf [contextString 0 "Gener@ted1"])]].

(** Success, the value holding a sequence of two strings tagged 0. *)
Definition twoPasswordsEnvelope : Packet :=
  envelope [extendedResponse 0
              [responseValue
                 (sequenceOf [contextString 0 "a"; contextString 0 "b"])]].

(** Success without a value. *)
Definition plainSuccessEnvelope : Packet := envelope [extendedResponse 0 []].

(** Result code 10 with a referral element that holds no URI. *)
Definition emptyReferralEnvelope : Packet :=
  envelope [extendedResponse 10 [referralElement []]].

(** A bind response (application tag 1) where an extended response is due. *)
Definition bindEnvelope : Packet :=
  envelope [node ClassApplication TypeConstructed 1 VNil [] []].

End Scripted.

(** ** Scripted failures

    Connections of [Scripted] on which the exchange fails, envelopes on which
    the loops panic, and a second inhabitant of [Env] whose [sendMessage]
    refuses every message. *)

Module Faulty.
Import Scripted.

(** The response channel is closed without a value. *)
Definition closed : @Conn env :=
  {| connDebug := false; connNextID := 1; connReply := None;
     connFinished := [] |}.

(** Reading the packet response gives [packet] and an error. *)
Definition unreadable (packet : option Packet) : @Conn env :=
  {| connDebug := false; connNextID := 1;
     connReply := Some (packet, Some (errorString "unable to read"));
     connFinished := [] |}.

(** As [answering], with debugging on. *)
Definition debugging (packet : Packet) : @Conn env :=
  {| connDebug := true; connNextID := 1;
     connReply := Some (Some packet, None); connFinished := [] |}.

(** [Scripted.env] with a [sendMessage] that fails. *)
Definition refusing : Env := {|
  Conn := conn;
  error := err;
  PacketResponse := option Packet * option err;
  ApplicationExtendedRequest := 23;
  ApplicationExtendedResponse := 24;
  LDAPResultReferral := 10;
  ErrorNetwork := 200;
  ErrorUnexpectedResponse := 205;
  errors_New := errorString;
  NewError := ldapError;
  GetLDAPError := classify;
  IsErrorWithCode := @IsErrorWithCode env;
  Debug := connDebug;
  nextMessageID := @nextMessageID env;
  sendMessage :=
    fun l _ => (inr (ldapError 200 (errorString "ldap: connection closed")), l);
  finishMessage := @finishMessage env;
  ReadPacket := fun packetResponse => packetResponse;
  addLDAPDescriptions := @addLDAPDescriptions env;
  Bytes := serialise;
  encodeInteger := fun n => [byteOfZ n];
  DecodePacket := @DecodePacket env;
  DecodeString := string_of_list_byte
|}.

(** A connection of [refusing]. *)
Definition unsent : @Conn refusing :=
  {| connDebug := false; connNextID := 1; connReply := None;
     connFinished := [] |}.

(** Result code 10, the first child of the referral element holding an
    integer. *)
Definition integerReferralEnvelope : Packet :=
  envelope [extendedResponse 10
              [node ClassContext TypeConstructed 3 VNil [] [enumerated 7]]].

(** Result code 10 with two referral elements, the second without a URI. *)
Definition halfReferralEnvelope : Packet :=
  envelope [extendedResponse 10
              [referralElement ["ldap://a"]; referralElement []]].

(** Success, the value without content: the reader finds no packet in it. *)
Definition emptyValueEnvelope : Packet :=
  envelope [extendedResponse 0 [node ClassContext TypePrimitive 11 VNil [] []]].

(** Success with two values: a sequence of one string tagged 0, then an
    empty sequence. *)
Definition twoValuesEnvelope : Packet :=
  envelope [extendedResponse 0
              [responseValue (sequenceOf [contextString 0 "Gener@ted1"]);
               responseValue (sequenceOf [])]].

End Faulty.

(** ** Proof steps *)

(** A child among finitely many listed ones, by its tag. *)
Ltac pick_child :=
  solve [ eexists; split; [left; reflexivity | reflexivity]
        | eexists; split; [right; left; reflexivity | reflexivity]
        | eexists; split; [right; right; left; reflexivity | reflexivity] ].

(** No listed child has the tag asked for. *)
Ltac no_child H :=
  let c := fresh "c" in
  let Hc := fresh "Hc" in
  let Ht := fresh "Ht" in
  destruct H as [c [Hc Ht]];
  repeat (destruct Hc as [Hc|Hc]; [subst c; cbn in Ht; discriminate Ht|]);
  destruct Hc.

(** ** The request payload *)

Section RequestPayload.
Context {E : Env}.

Lemma eqb_empty_false (a : ascii) (s : string) : (String a s =? "")%string = false.
Proof. reflexivity. Qed.

(** C1.  [encode] never fails, and the universal sequence inside the request
    value holds exactly the non-empty fields as context-class primitive
    string children, tagged 0 for the user identity, 1 for the old password
    and 2 for the new password: a child tagged [tag] is there if and only if
    the field of that tag is not the empty string, and the children come in
    increasing tag order whatever subset of the fields is set. *)
Theorem encode_emits_nonempty_fields_in_order (r : PasswordModifyRequest) :
  snd (encode r) = None /\
  exists sequence,
    innerSequence (fst (encode r)) = Some sequence /\
    ClassType sequence = ClassUniversal /\
    TagType sequence = TypeConstructed /\
    Tag sequence = TagSequence /\
    map scalar (Children sequence) =
      map (fun f => (ClassContext, TypePrimitive, fst f, VString (snd f), []))
          (filter (fun f => negb (snd f =? "")%string) (fields r)) /\
    (forall tag s, In (tag, s) (fields r) ->
       ((exists c, In c (Children sequence) /\ Tag c = tag) <-> s <> "")) /\
    StronglySorted Z.lt (map Tag (Children sequence)).
Proof.
  split; [reflexivity|].
  destruct r as [u o n].
  unfold encode, innerSequence, fields; cbn [UserIdentity OldPassword NewPassword].
  destruct u as [|ua us], o as [|oa os], n as [|na ns];
    rewrite ?eqb_empty_false; cbn -[list_byte_of_string];
    (eexists; split; [reflexivity|]);
    cbn -[list_byte_of_string];
    repeat (split; [reflexivity|]).
  all: split; [| repeat constructor; reflexivity ].
  all: intros tag s [H|[H|[H|[]]]]; injection H as <- <-.
  all: split; [ intros H | intros H ].
  all: try discriminate.
  all: try (exfalso; apply H; reflexivity).
  all: try pick_child.
  all: no_child H.
Qed.

End RequestPayload.

(** ** Decimal formatting *)

Lemma to_int_not_nil (n : Z) :
  Z.to_int n <> Decimal.Pos Decimal.Nil /\ Z.to_int n <> Decimal.Neg Decimal.Nil.
Proof.
  destruct n as [|p|p]; cbn; split; try discriminate.
  - intros [= H]. now apply Unsigned.to_uint_nonnil in H.
  - intros [= H]. now apply Unsigned.to_uint_nonnil in H.
Qed.

(** Two integers printed alike are equal. *)
Lemma fmt_d_inj (a b : Z) : fmt_d a = fmt_d b -> a = b.
Proof.
  unfold fmt_d; intros H.
  apply DecimalZ.to_int_inj.
  destruct (to_int_not_nil a) as [Ha1 Ha2], (to_int_not_nil b) as [Hb1 Hb2].
  pose proof (NilZero.isi _ Ha1 Ha2) as Ia.
  pose proof (NilZero.isi _ Hb1 Hb2) as Ib.
  rewrite H in Ia. congruence.
Qed.

Lemma append_inj_l (p a b : string) : (p ++ a = p ++ b)%string -> a = b.
Proof.
  induction p as [|c p IH]; cbn; intros H.
  - exact H.
  - injection H as H. now apply IH.
Qed.

(** ** Loops over the children of a packet *)

Section Loops.
Context {A S : Type}.
Variable body : A -> S -> Run S.

Lemma forRange_app (xs ys : list A) (s : S) :
  forRange (xs ++ ys) body s = (s' <- forRange xs body s ;; forRange ys body s').
Proof.
  revert s; induction xs as [|x xs IH]; intros s; cbn.
  - reflexivity.
  - destruct (body x s) as [s'|p]; cbn; [apply IH | reflexivity].
Qed.

(** Elements the body passes over leave the state as it is. *)
Lemma forRange_skip (xs : list A) (s : S) :
  Forall (fun x => forall s, body x s = Ok s) xs ->
  forRange xs body s = Ok s.
Proof.
  induction 1 as [|x xs Hx _ IH]; cbn.
  - reflexivity.
  - rewrite Hx; cbn. exact IH.
Qed.

(** A property of the state that every step keeps is kept by the loop. *)
Lemma forRange_invariant (P : S -> Prop) (xs : list A) :
  (forall x s s', P s -> body x s = Ok s' -> P s') ->
  forall s s', P s -> forRange xs body s = Ok s' -> P s'.
Proof.
  intros Hstep; induction xs as [|x xs IH]; cbn; intros s s' Hs Hrun.
  - injection Hrun as <-. exact Hs.
  - destruct (body x s) as [s1|p] eqn:Hb; cbn in Hrun; [|discriminate].
    eapply IH; [|exact Hrun]. eapply Hstep; eassumption.
Qed.

End Loops.

(** ** The response *)

Section Response.
Context {E : Env}.

Lemma PasswordModify_delivered l r packet :
  delivered l r packet ->
  fst (PasswordModify l r) = interpretResponse packet emptyResult.
Proof.
  intros (msgCtx & packetResponse & l' & Hsend & Hresp & Hread & Hdebug).
  unfold PasswordModify.
  destruct (nextMessageID l) as [messageID l1]; cbn [fst snd] in Hsend.
  unfold ldapRequest in Hsend.
  change (encode r) with (fst (encode r), @None error).
  cbv beta iota zeta.
  rewrite Hsend; cbn [fst]. rewrite Hresp, Hread.
  destruct Hdebug as [-> | Hd]; [reflexivity|].
  destruct (Debug l'); rewrite ?Hd; reflexivity.
Qed.

Lemma referralBody_other c result :
  Tag c <> 3 -> referralBody c result = Ok result.
Proof.
  intros H; unfold referralBody.
  destruct (Z.eqb_spec (Tag c) 3); [contradiction | reflexivity].
Qed.

Lemma referralBody_hit c s result :
  Tag c = 3 -> firstString c = Some s ->
  referralBody c result =
    Ok {| GeneratedPassword := GeneratedPassword result; Referral := s |}.
Proof.
  intros Ht Hs; unfold referralBody, firstString in *. rewrite Ht; cbn.
  destruct (Children c) as [|first rest]; [discriminate|]; cbn.
  destruct (Value first); try discriminate. injection Hs as ->. reflexivity.
Qed.

Lemma valueBody_other c result :
  Tag c <> 11 -> valueBody c result = Ok result.
Proof.
  intros H; unfold valueBody.
  destruct (Z.eqb_spec (Tag c) 11); [contradiction | reflexivity].
Qed.

(** Neither loop touches the field of the other. *)
Lemma valueBody_Referral c result result' :
  valueBody c result = Ok result' -> Referral result' = Referral result.
Proof.
  unfold valueBody. destruct (Tag c =? 11); [|intros [= <-]; reflexivity].
  destruct (DecodePacket (Data c)) as [v|]; cbn; [|discriminate].
  destruct (Children v) as [|only [|? ?]]; try (intros [= <-]; reflexivity).
  destruct (Tag only =? 0); intros [= <-]; reflexivity.
Qed.

Lemma referralBody_GeneratedPassword c result result' :
  referralBody c result = Ok result' ->
  GeneratedPassword result' = GeneratedPassword result.
Proof.
  unfold referralBody. destruct (Tag c =? 3); [|intros [= <-]; reflexivity].
  destruct (index (Children c) 0) as [first|]; cbn; [|discriminate].
  destruct (assertString (Value first)); cbn; [|discriminate].
  intros [= <-]; reflexivity.
Qed.

(** Where the loops panic: a child tagged 3 without children, or whose first
    child's value is no string; a child tagged 11 whose content the parser
    gives up on, returning nil. *)
Lemma referralBody_childless c result :
  Tag c = 3 -> Children c = [] -> referralBody c result = Panic IndexOutOfRange.
Proof.
  intros Ht Hc; unfold referralBody. rewrite Ht, Hc. reflexivity.
Qed.

Lemma referralBody_not_a_string c first rest result :
  Tag c = 3 -> Children c = first :: rest ->
  (forall s, Value first <> VString s) ->
  referralBody c result = Panic TypeAssertion.
Proof.
  intros Ht Hc Hv; unfold referralBody. rewrite Ht, Hc; cbn.
  destruct (Value first) as [|s|n|b]; try reflexivity.
  now destruct (Hv s).
Qed.

Lemma valueBody_nil c result :
  Tag c = 11 -> DecodePacket (Data c) = None ->
  valueBody c result = Panic NilDereference.
Proof.
  intros Ht Hc; unfold valueBody. rewrite Ht, Hc. reflexivity.
Qed.

(** The referral loop runs through children whose tag-3 members all carry a
    string, and keeps the generated password. *)
Lemma referralLoop_runs xs result :
  Forall (fun c => Tag c = 3 -> firstString c <> None) xs ->
  exists result',
    forRange xs referralBody result = Ok result' /\
    GeneratedPassword result' = GeneratedPassword result.
Proof.
  intros H; revert result; induction H as [|c xs Hc _ IH]; intros result; cbn.
  - eauto.
  - destruct (Z.eq_dec (Tag c) 3) as [Ht|Ht].
    + destruct (firstString c) as [s|] eqn:Hs; [|now destruct (Hc Ht)].
      rewrite (referralBody_hit c s result Ht Hs); cbn.
      destruct (IH {| GeneratedPassword := GeneratedPassword result;
                      Referral := s |}) as (r' & -> & Hg).
      eauto.
    + rewrite (referralBody_other c result Ht); cbn. apply IH.
Qed.

(** The last child tagged 3 decides the referral. *)
Lemma referralLoop_last pre c post s result :
  Forall (fun c' => Tag c' = 3 -> firstString c' <> None) pre ->
  Tag c = 3 -> firstString c = Some s ->
  Forall (fun c' => Tag c' <> 3) post ->
  forRange (pre ++ c :: post) referralBody result =
    Ok {| GeneratedPassword := GeneratedPassword result; Referral := s |}.
Proof.
  intros Hpre Ht Hs Hpost.
  rewrite forRange_app.
  destruct (referralLoop_runs pre result Hpre) as (r1 & -> & Hg); cbn.
  rewrite (referralBody_hit c s r1 Ht Hs); cbn. rewrite Hg.
  apply forRange_skip.
  eapply Forall_impl; [|exact Hpost].
  intros c' Hc' r. now apply referralBody_other.
Qed.

(** A list with a member tagged [t] splits at the last such member. *)
Lemma split_at_last_tagged (t : BerTag) (xs : list Packet) :
  Exists (fun c => Tag c = t) xs ->
  exists pre c post,
    xs = pre ++ c :: post /\ Tag c = t /\ Forall (fun c' => Tag c' <> t) post.
Proof.
  induction xs as [|x xs IH]; intros H.
  - inversion H.
  - destruct (Exists_dec (fun c => Tag c = t) xs) as [Hin|Hout].
    + intros c; apply Z.eq_dec.
    + destruct (IH Hin) as (pre & c & post & -> & Ht & Hpost).
      exists (x :: pre), c, post. auto.
    + exists [], x, xs. repeat split.
      * inversion H; [assumption | contradiction].
      * apply Forall_forall. intros c' Hc' Heq. apply Hout.
        apply Exists_exists. eauto.
Qed.

(** A child tagged 11 whose content parses to a tree of any other shape than
    one child tagged 0 is passed over. *)
Lemma valueBody_other_shape c tree result :
  DecodePacket (Data c) = Some tree ->
  (forall only, Children tree = [only] -> Tag only <> 0) ->
  valueBody c result = Ok result.
Proof.
  intros Htree Hshape; unfold valueBody.
  destruct (Tag c =? 11); [|reflexivity].
  rewrite Htree; cbn.
  destruct (Children tree) as [|only [|second rest]]; try reflexivity.
  destruct (Z.eqb_spec (Tag only) 0) as [H0|H0]; [|reflexivity].
  now destruct (Hshape only eq_refl).
Qed.

(** A child tagged 11 whose content parses to one child tagged 0 sets the
    generated password. *)
Lemma valueBody_hit c tree only result :
  Tag c = 11 ->
  DecodePacket (Data c) = Some tree ->
  Children tree = [only] ->
  Tag only = 0 ->
  valueBody c result =
    Ok {| GeneratedPassword := DecodeString (Data only);
          Referral := Referral result |}.
Proof.
  intros Hc Htree Honly H0; unfold valueBody.
  rewrite Hc, Z.eqb_refl, Htree; cbn.
  rewrite Honly, H0, Z.eqb_refl. reflexivity.
Qed.

(** The value loop runs through children whose tag-11 members all parse, and
    keeps the referral. *)
Lemma valueLoop_runs xs result :
  Forall (fun c => Tag c = 11 -> DecodePacket (Data c) <> None) xs ->
  exists result',
    forRange xs valueBody result = Ok result' /\
    Referral result' = Referral result.
Proof.
  intros H; revert result; induction H as [|c xs Hc _ IH]; intros result; cbn.
  - eauto.
  - destruct (valueBody c result) as [r1|p] eqn:Hbody; cbn.
    + destruct (IH r1) as (r' & -> & Hr).
      exists r'. split; [reflexivity|].
      rewrite Hr. apply (valueBody_Referral c _ _ Hbody).
    + exfalso. unfold valueBody in Hbody.
      destruct (Z.eqb_spec (Tag c) 11) as [Ht|Ht]; [|discriminate].
      destruct (DecodePacket (Data c)) as [tree|]; [|now apply (Hc Ht)].
      cbn in Hbody.
      destruct (Children tree) as [|only [|? ?]]; try discriminate.
      destruct (Tag only =? 0); discriminate.
Qed.

(** The last child tagged 11, when its content has the shape, decides the
    generated password. *)
Lemma valueLoop_last pre value post tree only result :
  Forall (fun c => Tag c = 11 -> DecodePacket (Data c) <> None) pre ->
  Forall (fun c => Tag c <> 11) post ->
  Tag value = 11 ->
  DecodePacket (Data value) = Some tree ->
  Children tree = [only] ->
  Tag only = 0 ->
  forRange (pre ++ value :: post) valueBody result =
    Ok {| GeneratedPassword := DecodeString (Data only);
          Referral := Referral result |}.
Proof.
  intros Hpre Hpost Hv Htree Honly H0.
  rewrite forRange_app.
  destruct (valueLoop_runs pre result Hpre) as (r1 & -> & Hr); cbn.
  rewrite (valueBody_hit value tree only r1 Hv Htree Honly H0); cbn.
  rewrite Hr.
  apply forRange_skip.
  eapply Forall_impl; [|exact Hpost].
  intros c Hc r'. now apply valueBody_other.
Qed.

(** Without a child tagged 11 of the shape, the value loop changes
    nothing. *)
Lemma valueLoop_no_shape xs result :
  Forall (fun c =>
            Tag c = 11 ->
            exists tree,
              DecodePacket (Data c) = Some tree /\
              forall only, Children tree = [only] -> Tag only <> 0) xs ->
  forRange xs valueBody result = Ok result.
Proof.
  intros H. apply forRange_skip.
  eapply Forall_impl; [|exact H].
  intros c Hc r'. cbv beta in Hc.
  destruct (Z.eq_dec (Tag c) 11) as [Ht|Ht].
  - destruct (Hc Ht) as (tree & Htree & Hshape).
    now apply (valueBody_other_shape c tree).
  - now apply valueBody_other.
Qed.

(** The way through line 128 for an envelope with a second child. *)
Lemma interpretResponse_second packet response result :
  nth_error (Children packet) 1 = Some response ->
  interpretResponse packet result =
    if Tag response =? ApplicationExtendedResponse then
      match GetLDAPError packet with
      | Some err =>
          if IsErrorWithCode err LDAPResultReferral then
            result' <- forRange (Children response) referralBody result ;;
            Ok (Some result', Some err)
          else Ok (Some result, Some err)
      | None =>
          result' <- forRange (Children response) valueBody result ;;
          Ok (Some result', None)
      end
    else
      Ok (None, Some (NewError ErrorUnexpectedResponse
                               (unexpectedResponse (Tag response)))).
Proof.
  intros H. unfold interpretResponse, index. rewrite H. reflexivity.
Qed.

End Response.

(** ** What [PasswordModify] returns *)

Section Interpretation.
Context {E : Env}.
Implicit Types (l : Conn) (r : PasswordModifyRequest).
Implicit Types (packet response : Packet) (err : error).

(** The common way in: [packet] was delivered, its second child is
    [response], tagged as an extended response. *)
Lemma PasswordModify_extended l r packet response :
  delivered l r packet ->
  nth_error (Children packet) 1 = Some response ->
  Tag response = ApplicationExtendedResponse ->
  fst (PasswordModify l r) =
    match GetLDAPError packet with
    | Some err =>
        if IsErrorWithCode err LDAPResultReferral then
          result <- forRange (Children response) referralBody emptyResult ;;
          Ok (Some result, Some err)
        else Ok (Some emptyResult, Some err)
    | None =>
        result <- forRange (Children response) valueBody emptyResult ;;
        Ok (Some result, None)
    end.
Proof.
  intros Hd Hnth Ht.
  rewrite (PasswordModify_delivered _ _ _ Hd).
  rewrite (interpretResponse_second _ _ _ Hnth), Ht, Z.eqb_refl.
  reflexivity.
Qed.

(** C2, on the code.  An envelope with fewer than two top-level children that
    reaches line 128 makes [packet.Children[1]] panic with an index out of
    range: [PasswordModify] returns neither a result nor an error. *)
Theorem PasswordModify_short_envelope_panics l r packet :
  delivered l r packet ->
  (List.length (Children packet) < 2)%nat ->
  fst (PasswordModify l r) = Panic IndexOutOfRange.
Proof.
  intros Hd Hlen.
  rewrite (PasswordModify_delivered _ _ _ Hd).
  unfold interpretResponse, index.
  destruct (nth_error (Children packet) 1) as [response|] eqn:Hnth.
  - assert (1 < List.length (Children packet))%nat
      by (apply nth_error_Some; congruence).
    lia.
  - reflexivity.
Qed.

(** C3, as amended.  When the classifier reports a failure that is not a
    referral, [PasswordModify] returns that error together with the result
    allocated at line 104, a non-nil result whose two fields are empty. *)
Theorem PasswordModify_failure_returns_empty_result l r packet response err :
  delivered l r packet ->
  nth_error (Children packet) 1 = Some response ->
  Tag response = ApplicationExtendedResponse ->
  GetLDAPError packet = Some err ->
  IsErrorWithCode err LDAPResultReferral = false ->
  fst (PasswordModify l r) = Ok (Some emptyResult, Some err).
Proof.
  intros Hd Hnth Ht Herr Hcode.
  rewrite (PasswordModify_extended _ _ _ _ Hd Hnth Ht), Herr, Hcode.
  reflexivity.
Qed.

(** C4, as amended.  When the classifier reports a referral and the extended
    response has a child tagged 3, every child tagged 3 having a first child
    whose value is a string, [PasswordModify] returns the classifier's error,
    not nil, together with a result whose [Referral] is the string of the
    first child of the last child tagged 3: the partial result comes with
    the failure. *)
Theorem PasswordModify_referral_returns_partial_result
        l r packet response err c :
  delivered l r packet ->
  nth_error (Children packet) 1 = Some response ->
  Tag response = ApplicationExtendedResponse ->
  GetLDAPError packet = Some err ->
  IsErrorWithCode err LDAPResultReferral = true ->
  In c (Children response) ->
  Tag c = 3 ->
  (forall c', In c' (Children response) -> Tag c' = 3 -> firstString c' <> None) ->
  exists pre last post s,
    Children response = pre ++ last :: post /\
    Tag last = 3 /\
    Forall (fun c' => Tag c' <> 3) post /\
    firstString last = Some s /\
    fst (PasswordModify l r) =
      Ok (Some {| GeneratedPassword := ""; Referral := s |}, Some err).
Proof.
  intros Hd Hnth Ht Herr Hcode Hin Hc Hwf.
  rewrite (PasswordModify_extended _ _ _ _ Hd Hnth Ht), Herr, Hcode.
  destruct (split_at_last_tagged 3 (Children response))
    as (pre & last & post & Heq & Hlast & Hpost).
  { apply Exists_exists. eauto. }
  assert (Hin' : In last (Children response))
    by (rewrite Heq; apply in_elt).
  destruct (firstString last) as [s|] eqn:Hs;
    [|now destruct (Hwf last Hin' Hlast)].
  exists pre, last, post, s. repeat split; try assumption.
  rewrite Heq, (referralLoop_last pre last post s); try assumption.
  - reflexivity.
  - apply Forall_forall. intros x Hx. apply Hwf.
    rewrite Heq. apply in_or_app. now left.
Qed.

(** C5.  Round trip.  Whatever the request, its encoding does not fail, and
    when the response is a success whose extended response holds a child
    tagged 11 (the last one so tagged, those before it parsing to some
    tree), the content of which parses to a tree with a single child, tagged
    0 and holding [v], [PasswordModify] returns no error and the result with
    [GeneratedPassword] equal to [v] and an empty [Referral]. *)
Theorem PasswordModify_roundtrip_generated_password
        l r packet response pre value post tree only v :
  delivered l r packet ->
  nth_error (Children packet) 1 = Some response ->
  Tag response = ApplicationExtendedResponse ->
  GetLDAPError packet = None ->
  Children response = pre ++ value :: post ->
  Forall (fun c => Tag c = 11 -> DecodePacket (Data c) <> None) pre ->
  Forall (fun c => Tag c <> 11) post ->
  Tag value = 11 ->
  DecodePacket (Data value) = Some tree ->
  Children tree = [only] ->
  Tag only = 0 ->
  DecodeString (Data only) = v ->
  snd (encode r) = None /\
  fst (PasswordModify l r) =
    Ok (Some {| GeneratedPassword := v; Referral := "" |}, None).
Proof.
  intros Hd Hnth Ht Herr Heq Hpre Hpost Hv Htree Honly H0 Hs.
  split; [reflexivity|].
  rewrite (PasswordModify_extended _ _ _ _ Hd Hnth Ht), Herr, Heq.
  rewrite (valueLoop_last pre value post tree only emptyResult
             Hpre Hpost Hv Htree Honly H0), Hs.
  reflexivity.
Qed.

(** C6.  When the second top-level child of the response is not tagged as an
    extended response, [PasswordModify] returns no result and the error made
    by [NewError] from [ErrorUnexpectedResponse] and the message
    "unexpected Response: " followed by the child's tag in decimal; the
    message carries the tag, in that no other tag gives the same message. *)
Theorem PasswordModify_unexpected_response_type l r packet response :
  delivered l r packet ->
  nth_error (Children packet) 1 = Some response ->
  Tag response <> ApplicationExtendedResponse ->
  fst (PasswordModify l r) =
    Ok (None,
        Some (NewError ErrorUnexpectedResponse
                (errors_New ("unexpected Response: " ++ fmt_d (Tag response))%string)))
  /\
  (forall tag,
     ("unexpected Response: " ++ fmt_d tag)%string =
     ("unexpected Response: " ++ fmt_d (Tag response))%string ->
     tag = Tag response).
Proof.
  intros Hd Hnth Ht. split.
  - rewrite (PasswordModify_delivered _ _ _ Hd).
    rewrite (interpretResponse_second _ _ _ Hnth).
    destruct (Z.eqb_spec (Tag response) ApplicationExtendedResponse);
      [contradiction | reflexivity].
  - intros tag H. apply fmt_d_inj. exact (append_inj_l _ _ _ H).
Qed.

(** C7.  A success whose extended response has no child tagged 11 is not a
    failure: [PasswordModify] returns no error and a result with an empty
    [GeneratedPassword]. *)
Theorem PasswordModify_success_without_value l r packet response :
  delivered l r packet ->
  nth_error (Children packet) 1 = Some response ->
  Tag response = ApplicationExtendedResponse ->
  GetLDAPError packet = None ->
  Forall (fun c => Tag c <> 11) (Children response) ->
  fst (PasswordModify l r) =
    Ok (Some {| GeneratedPassword := ""; Referral := "" |}, None).
Proof.
  intros Hd Hnth Ht Herr Hno.
  rewrite (PasswordModify_extended _ _ _ _ Hd Hnth Ht), Herr.
  rewrite forRange_skip; [reflexivity|].
  eapply Forall_impl; [|exact Hno].
  intros c Hc result. now apply valueBody_other.
Qed.

(** C8, as amended.  On a success whose extended response carries children
    tagged 11, each with a content that parses to a tree, the content is
    parsed again and [GeneratedPassword] is set from it only when the tree
    has exactly one child and that child is tagged 0: the last child tagged
    11 whose tree has that shape gives the string decoded from the content
    of the tree's child, the children tagged 11 after it, of another shape,
    leaving it so; when no tree has that shape (no child, several children,
    or one child with another tag), [GeneratedPassword] is empty.  No error
    is returned in either case. *)
Theorem PasswordModify_value_shape l r packet response :
  delivered l r packet ->
  nth_error (Children packet) 1 = Some response ->
  Tag response = ApplicationExtendedResponse ->
  GetLDAPError packet = None ->
  (forall c, In c (Children response) -> Tag c = 11 ->
             DecodePacket (Data c) <> None) ->
  (forall pre value post tree only,
     Children response = pre ++ value :: post ->
     valuesOfOtherShape post ->
     Tag value = 11 ->
     DecodePacket (Data value) = Some tree ->
     Children tree = [only] ->
     Tag only = 0 ->
     fst (PasswordModify l r) =
       Ok (Some {| GeneratedPassword := DecodeString (Data only);
                   Referral := "" |}, None)) /\
  ((forall c tree only,
      In c (Children response) -> Tag c = 11 ->
      DecodePacket (Data c) = Some tree ->
      Children tree = [only] -> Tag only <> 0) ->
   fst (PasswordModify l r) =
     Ok (Some {| GeneratedPassword := ""; Referral := "" |}, None)).
Proof.
  intros Hd Hnth Ht Herr Hparse.
  rewrite (PasswordModify_extended _ _ _ _ Hd Hnth Ht), Herr.
  split.
  - intros pre value post tree only Heq Hpost Hv Htree Honly H0.
    assert (Hpre : Forall (fun c => Tag c = 11 -> DecodePacket (Data c) <> None)
                          pre).
    { apply Forall_forall. intros c Hc. apply Hparse.
      rewrite Heq. apply in_or_app. now left. }
    rewrite Heq, forRange_app.
    destruct (valueLoop_runs pre emptyResult Hpre) as (r1 & -> & Hr); cbn.
    rewrite (valueBody_hit value tree only r1 Hv Htree Honly H0); cbn.
    rewrite (valueLoop_no_shape post _ Hpost), Hr. reflexivity.
  - intros Hother.
    rewrite valueLoop_no_shape; [reflexivity|].
    apply Forall_forall. intros c Hc Hc11.
    destruct (DecodePacket (Data c)) as [tree|] eqn:Htree;
      [|now destruct (Hparse c Hc Hc11)].
    exists tree. split; [reflexivity|].
    intros only Honly. exact (Hother c tree only Hc Hc11 Htree Honly).
Qed.

(** C9.  Whenever [PasswordModify] returns a nil error, it returns a result
    whose [Referral] is the empty string: [Referral] is assigned only on the
    way out with the referral error. *)
Theorem PasswordModify_success_has_no_referral l r result :
  fst (PasswordModify l r) = Ok (result, None) ->
  exists res, result = Some res /\ Referral res = "".
Proof.
  unfold PasswordModify.
  destruct (nextMessageID l) as [messageID l1].
  change (encode r) with (fst (encode r), @None error).
  cbv beta iota zeta.
  destruct (sendMessage _ _) as [[msgCtx|err] l2]; cbn [fst]; [|discriminate].
  destruct (responses msgCtx) as [packetResponse|]; [|discriminate].
  destruct (ReadPacket packetResponse) as [[packet|] [err|]]; try discriminate.
  destruct (if Debug l2 then addLDAPDescriptions packet else None);
    [discriminate|].
  unfold interpretResponse.
  destruct (index (Children packet) 1) as [response|]; cbn; [|discriminate].
  destruct (Tag response =? ApplicationExtendedResponse); [|discriminate].
  destruct (GetLDAPError packet) as [err|].
  - destruct (IsErrorWithCode err LDAPResultReferral); [|discriminate].
    destruct (forRange _ referralBody _); cbn; discriminate.
  - destruct (forRange (Children response) valueBody _) as [res|] eqn:Hloop;
      cbn; [|discriminate].
    intros [= <-]. exists res. split; [reflexivity|].
    apply (forRange_invariant valueBody (fun s => Referral s = "")
             (Children response)) with (s := {| GeneratedPassword := "";
                                                Referral := "" |});
      [|reflexivity|exact Hloop].
    intros c s s' Hs Hstep.
    rewrite (valueBody_Referral c s s' Hstep). exact Hs.
Qed.

(** C10.  When the classifier reports a referral, the child tagged 3 that
    comes last among the children of the extended response decides
    [Referral]: its first child's string is returned, whatever the children
    tagged 3 before it carry, each one overwriting the one before. *)
Theorem PasswordModify_last_referral_wins
        l r packet response err pre c post s :
  delivered l r packet ->
  nth_error (Children packet) 1 = Some response ->
  Tag response = ApplicationExtendedResponse ->
  GetLDAPError packet = Some err ->
  IsErrorWithCode err LDAPResultReferral = true ->
  Children response = pre ++ c :: post ->
  Forall (fun c' => Tag c' = 3 -> firstString c' <> None) pre ->
  Tag c = 3 ->
  firstString c = Some s ->
  Forall (fun c' => Tag c' <> 3) post ->
  fst (PasswordModify l r) =
    Ok (Some {| GeneratedPassword := ""; Referral := s |}, Some err).
Proof.
  intros Hd Hnth Ht Herr Hcode Heq Hpre Hc Hs Hpost.
  rewrite (PasswordModify_extended _ _ _ _ Hd Hnth Ht), Herr, Hcode, Heq.
  rewrite (referralLoop_last pre c post s emptyResult Hpre Hc Hs Hpost).
  reflexivity.
Qed.

End Interpretation.

(** ** The theorems on the scripted connection *)

Section OnTheScriptedConnection.
Import Scripted.
#[local] Existing Instance env.

Lemma answering_delivered (packet : Packet) (r : PasswordModifyRequest) :
  delivered (answering packet) r packet.
Proof.
  unfold delivered; cbn.
  do 3 eexists. repeat split; try reflexivity. left; reflexivity.
Qed.

(** The example of the specification: a request with only a new password has
    one child in its sequence, tagged 2 and holding the password. *)
Example encode_new_password_only :
  option_map (fun sequence => map scalar (Children sequence))
             (innerSequence (fst (encode request)))
  = Some [(ClassContext, TypePrimitive, 2, VString "NewPass1", [])].
Proof. reflexivity. Qed.

(** A referral element without a URI: line 134 indexes an empty list. *)
Example referral_without_uri_panics :
  fst (PasswordModify (answering emptyReferralEnvelope) request)
  = Panic IndexOutOfRange.
Proof. reflexivity. Qed.

(** The short envelope, delivered with debugging off, ends in the panic. *)
Lemma PasswordModify_short_envelope_witness :
  (List.length (Children shortEnvelope) < 2)%nat /\
  fst (PasswordModify (answering shortEnvelope) request) = Panic IndexOutOfRange.
Proof.
  split; [cbn; lia|].
  apply (PasswordModify_short_envelope_panics
           (answering shortEnvelope) request shortEnvelope).
  - apply answering_delivered.
  - cbn; lia.
Defined.

(** C3 fails as stated: on a failure that is no referral the result is not
    nil. *)
Lemma PasswordModify_failure_result_is_not_nil :
  GetLDAPError failureEnvelope = Some (ldapError 49 (errorString "LDAP Result")) /\
  IsErrorWithCode (ldapError 49 (errorString "LDAP Result")) LDAPResultReferral
    = false /\
  fst (PasswordModify (answering failureEnvelope) request)
    = Ok (Some emptyResult, Some (ldapError 49 (errorString "LDAP Result"))) /\
  fst (PasswordModify (answering failureEnvelope) request)
    <> Ok (None, Some (ldapError 49 (errorString "LDAP Result"))).
Proof.
  repeat split; try reflexivity. discriminate.
Qed.

Lemma PasswordModify_failure_witness :
  fst (PasswordModify (answering failureEnvelope) request)
    = Ok (Some emptyResult, Some (ldapError 49 (errorString "LDAP Result"))).
Proof.
  apply (PasswordModify_failure_returns_empty_result
           (answering failureEnvelope) request failureEnvelope
           (extendedResponse 49 [])).
  - apply answering_delivered.
  - reflexivity.
  - reflexivity.
  - reflexivity.
  - reflexivity.
Defined.

Lemma PasswordModify_referral_witness :
  exists pre last post s,
    Children (extendedResponse 10 [referralElement ["ldap://a"]])
      = pre ++ last :: post /\
    Tag last = 3 /\
    Forall (fun c' => Tag c' <> 3) post /\
    firstString last = Some s /\
    fst (PasswordModify (answering referralEnvelope) request) =
      Ok (Some {| GeneratedPassword := ""; Referral := s |},
          Some (ldapError 10 (errorString "LDAP Result"))).
Proof.
  apply (PasswordModify_referral_returns_partial_result
           (answering referralEnvelope) request referralEnvelope
           (extendedResponse 10 [referralElement ["ldap://a"]])
           (ldapError 10 (errorString "LDAP Result"))
           (referralElement ["ldap://a"])).
  - apply answering_delivered.
  - reflexivity.
  - reflexivity.
  - reflexivity.
  - reflexivity.
  - cbn; tauto.
  - reflexivity.
  - intros c' Hin Ht; cbn in Hin.
    repeat (destruct Hin as [<-|Hin]; [try discriminate Ht|]).
    + cbn; discriminate.
    + destruct Hin.
Defined.

Lemma PasswordModify_roundtrip_witness :
  snd (encode request) = None /\
  fst (PasswordModify (answering generatedEnvelope) request) =
    Ok (Some {| GeneratedPassword := "Gener@ted1"; Referral := "" |}, None).
Proof.
  apply (PasswordModify_roundtrip_generated_password
           (answering generatedEnvelope) request generatedEnvelope
           (extendedResponse 0
              [responseValue (sequenceOf [contextString 0 "Gener@ted1"])])
           [enumerated 0; octetString ""; octetString ""]
           (responseValue (sequenceOf [contextString 0 "Gener@ted1"]))
           []
           (sequenceOf [contextString 0 "Gener@ted1"])
           (contextString 0 "Gener@ted1")).
  - apply answering_delivered.
  - reflexivity.
  - reflexivity.
  - reflexivity.
  - reflexivity.
  - repeat constructor; discriminate.
  - constructor.
  - reflexivity.
  - vm_compute; reflexivity.
  - reflexivity.
  - reflexivity.
  - reflexivity.
Defined.

Lemma PasswordModify_unexpected_response_witness :
  fst (PasswordModify (answering bindEnvelope) request) =
    Ok (None, Some (ldapError 205 (errorString "unexpected Response: 1"))).
Proof.
  apply (proj1 (PasswordModify_unexpected_response_type
                  (answering bindEnvelope) request bindEnvelope
                  (node ClassApplication TypeConstructed 1 VNil [] [])
                  (answering_delivered _ _) eq_refl
                  ltac:(discriminate))).
Defined.

Lemma PasswordModify_success_without_value_witness :
  fst (PasswordModify (answering plainSuccessEnvelope) request) =
    Ok (Some {| GeneratedPassword := ""; Referral := "" |}, None).
Proof.
  apply (PasswordModify_success_without_value
           (answering plainSuccessEnvelope) request plainSuccessEnvelope
           (extendedResponse 0 [])).
  - apply answering_delivered.
  - reflexivity.
  - reflexivity.
  - reflexivity.
  - repeat constructor; discriminate.
Defined.

Lemma PasswordModify_value_shape_witness :
  fst (PasswordModify (answering generatedEnvelope) request) =
    Ok (Some {| GeneratedPassword := "Gener@ted1"; Referral := "" |}, None) /\
  fst (PasswordModify (answering twoPasswordsEnvelope) request) =
    Ok (Some {| GeneratedPassword := ""; Referral := "" |}, None).
Proof.
  split.
  - refine (proj1 (PasswordModify_value_shape
              (answering generatedEnvelope) request generatedEnvelope
              (extendedResponse 0
                 [responseValue (sequenceOf [contextString 0 "Gener@ted1"])])
              (answering_delivered _ _) eq_refl eq_refl eq_refl _)
            [enumerated 0; octetString ""; octetString ""]
            (responseValue (sequenceOf [contextString 0 "Gener@ted1"]))
            []
            (sequenceOf [contextString 0 "Gener@ted1"])
            (contextString 0 "Gener@ted1")
            eq_refl _ eq_refl _ eq_refl eq_refl).
    + intros c Hin Ht; cbn in Hin.
      repeat (destruct Hin as [<-|Hin]; [try discriminate Ht|]).
      * vm_compute; discriminate.
      * destruct Hin.
    + constructor.
    + vm_compute; reflexivity.
  - refine (proj2 (PasswordModify_value_shape
              (answering twoPasswordsEnvelope) request twoPasswordsEnvelope
              (extendedResponse 0
                 [responseValue
                    (sequenceOf [contextString 0 "a"; contextString 0 "b"])])
              (answering_delivered _ _) eq_refl eq_refl eq_refl _) _).
    + intros c Hin Ht; cbn in Hin.
      repeat (destruct Hin as [<-|Hin]; [try discriminate Ht|]).
      * vm_compute; discriminate.
      * destruct Hin.
    + intros c tree only Hin Ht Htree Honly; cbn in Hin.
      repeat (destruct Hin as [<-|Hin]; [try discriminate Ht|]).
      * vm_compute in Htree. injection Htree as <-. discriminate Honly.
      * destruct Hin.
Defined.

Lemma PasswordModify_success_has_no_referral_witness :
  exists res,
    Some {| GeneratedPassword := "Gener@ted1"; Referral := "" |} = Some res /\
    Referral res = "".
Proof.
  apply (PasswordModify_success_has_no_referral
           (answering generatedEnvelope) request).
  reflexivity.
Defined.

Lemma PasswordModify_last_referral_witness :
  fst (PasswordModify (answering twoReferralsEnvelope) request) =
    Ok (Some {| GeneratedPassword := ""; Referral := "ldap://b" |},
        Some (ldapError 10 (errorString "LDAP Result"))).
Proof.
  apply (PasswordModify_last_referral_wins
           (answering twoReferralsEnvelope) request twoReferralsEnvelope
           (extendedResponse 10
              [referralElement ["ldap://a"]; referralElement ["ldap://b"]])
           (ldapError 10 (errorString "LDAP Result"))
           [enumerated 10; octetString ""; octetString "";
            referralElement ["ldap://a"]]
           (referralElement ["ldap://b"])
           []).
  - apply answering_delivered.
  - reflexivity.
  - reflexivity.
  - reflexivity.
  - reflexivity.
  - reflexivity.
  - repeat constructor; cbn; discriminate.
  - reflexivity.
  - reflexivity.
  - constructor.
Defined.

End OnTheScriptedConnection.

(** ** Further properties: the exchange *)

Section Exchange.
Context {E : Env}.
Implicit Types (l : Conn) (r : PasswordModifyRequest).
Implicit Types (packet response : Packet) (err : error).

(** [PasswordModify] by what the send answers. *)
Lemma PasswordModify_by_sent l r :
  PasswordModify l r =
    match sent l r with
    | (inr err, l') => (Ok (None, Some err), l')
    | (inl msgCtx, l') =>
        (match responses msgCtx with
         | None =>
             Ok (None, Some (NewError ErrorNetwork
                               (errors_New "ldap: response channel closed")))
         | Some packetResponse =>
             match ReadPacket packetResponse with
             | (_, Some err) => Ok (None, Some err)
             | (None, None) =>
                 Ok (None, Some (NewError ErrorNetwork
                                   (errors_New "ldap: could not retrieve message")))
             | (Some packet, None) =>
                 match (if Debug l' then addLDAPDescriptions packet else None) with
                 | Some err => Ok (None, Some err)
                 | None => interpretResponse packet emptyResult
                 end
             end
         end,
         finishMessage l' msgCtx)
    end.
Proof.
  unfold PasswordModify, sent, ldapRequest.
  destruct (nextMessageID l) as [messageID l1]; cbn [fst snd].
  change (encode r) with (fst (encode r), @None error).
  cbv beta iota zeta.
  destruct (sendMessage _ _) as [[msgCtx|err] l2]; reflexivity.
Qed.

(** Either a packet is delivered to line 128, or the call returns a nil
    result with an error. *)
Lemma PasswordModify_delivered_or_rejected l r :
  (exists packet, delivered l r packet) \/
  (exists err, fst (PasswordModify l r) = Ok (None, Some err)).
Proof.
  rewrite PasswordModify_by_sent. unfold delivered. fold (sent l r).
  destruct (sent l r) as [[msgCtx|err] l2]; cbn [fst]; [|eauto].
  destruct (responses msgCtx) as [packetResponse|] eqn:Hresp; [|eauto].
  destruct (ReadPacket packetResponse) as [[packet|] [err|]] eqn:Hread; eauto.
  destruct (Debug l2) eqn:Hdebug.
  - destruct (addLDAPDescriptions packet) as [err|] eqn:Hadd; [eauto|].
    left. exists packet, msgCtx, packetResponse, l2. auto.
  - left. exists packet, msgCtx, packetResponse, l2. auto.
Qed.

(** X1.  When no packet is delivered to the interpretation of lines 128-156
    (the send failed, the response channel was closed, reading the packet
    response gave an error or no packet, or the debug annotation failed),
    [PasswordModify] returns a nil result together with an error. *)
Theorem PasswordModify_undelivered_is_an_error l r :
  (forall packet, ~ delivered l r packet) ->
  exists err, fst (PasswordModify l r) = Ok (None, Some err).
Proof.
  intros Hnone.
  destruct (PasswordModify_delivered_or_rejected l r) as [[packet Hd]|H].
  - now destruct (Hnone packet).
  - exact H.
Qed.

(** X2.  When [sendMessage] fails, [PasswordModify] returns a nil result and
    the error of [sendMessage], and leaves the connection as [sendMessage]
    left it: [finishMessage], deferred after the send, does not run. *)
Theorem PasswordModify_send_failure l r err l' :
  sent l r = (inr err, l') ->
  PasswordModify l r = (Ok (None, Some err), l').
Proof.
  intros Hsent. rewrite PasswordModify_by_sent, Hsent. reflexivity.
Qed.

(** X3.  Once [sendMessage] has succeeded, the connection [PasswordModify]
    leaves behind is the one [finishMessage] gives for the message context
    of the send, whatever the call ends in: a result, an error or a
    panic. *)
Theorem PasswordModify_finishes_message l r msgCtx l' :
  sent l r = (inl msgCtx, l') ->
  snd (PasswordModify l r) = finishMessage l' msgCtx.
Proof.
  intros Hsent. rewrite PasswordModify_by_sent, Hsent. reflexivity.
Qed.

(** X4.  After a successful send, the failures of the exchange each give a
    nil result and their own error: a closed response channel gives an error
    of [ErrorNetwork] with the message "ldap: response channel closed"; an
    error of [ReadPacket] is returned as it is, whether or not a packet comes
    with it; and with debugging on, an error of [addLDAPDescriptions] is
    returned whatever the packet holds. *)
Theorem PasswordModify_exchange_failures l r msgCtx l' :
  sent l r = (inl msgCtx, l') ->
  (responses msgCtx = None ->
   fst (PasswordModify l r) =
     Ok (None, Some (NewError ErrorNetwork
                       (errors_New "ldap: response channel closed")))) /\
  (forall packetResponse (read : option Packet) err,
     responses msgCtx = Some packetResponse ->
     ReadPacket packetResponse = (read, Some err) ->
     fst (PasswordModify l r) = Ok (None, Some err)) /\
  (forall packetResponse packet err,
     responses msgCtx = Some packetResponse ->
     ReadPacket packetResponse = (Some packet, None) ->
     Debug l' = true ->
     addLDAPDescriptions packet = Some err ->
     fst (PasswordModify l r) = Ok (None, Some err)).
Proof.
  intros Hsent. rewrite PasswordModify_by_sent, Hsent; cbn [fst].
  repeat split.
  - intros ->. reflexivity.
  - intros packetResponse read err -> ->. now destruct read.
  - intros packetResponse packet err -> -> -> ->. reflexivity.
Qed.

End Exchange.

(** ** Further properties: the outcomes *)

Section Outcomes.
Context {E : Env}.
Implicit Types (l : Conn) (r : PasswordModifyRequest).
Implicit Types (packet response : Packet) (err : error).

(** The referral loop keeps the generated password. *)
Lemma referralLoop_GeneratedPassword xs result result' :
  forRange xs referralBody result = Ok result' ->
  GeneratedPassword result' = GeneratedPassword result.
Proof.
  apply (forRange_invariant referralBody
           (fun s => GeneratedPassword s = GeneratedPassword result) xs);
    [|reflexivity].
  intros c s s' Hs Hstep.
  rewrite (referralBody_GeneratedPassword c s s' Hstep). exact Hs.
Qed.

(** The value loop keeps the referral. *)
Lemma valueLoop_Referral xs result result' :
  forRange xs valueBody result = Ok result' ->
  Referral result' = Referral result.
Proof.
  apply (forRange_invariant valueBody
           (fun s => Referral s = Referral result) xs);
    [|reflexivity].
  intros c s s' Hs Hstep.
  rewrite (valueBody_Referral c s s' Hstep). exact Hs.
Qed.

(** A referral loop that returns has met only children tagged 3 that carry a
    string. *)
Lemma referralLoop_returns xs result result' :
  forRange xs referralBody result = Ok result' ->
  referralsCarryStrings xs.
Proof.
  unfold referralsCarryStrings.
  revert result; induction xs as [|c xs IH]; intros result Hrun.
  - constructor.
  - cbn in Hrun.
    destruct (referralBody c result) as [r1|p] eqn:Hbody; cbn in Hrun;
      [|discriminate].
    constructor; [|now apply (IH r1)].
    intros Ht Hnone. unfold referralBody in Hbody. rewrite Ht in Hbody.
    unfold firstString in Hnone. cbn in Hbody.
    destruct (Children c) as [|first rest]; cbn in Hbody; [discriminate|].
    destruct (Value first); cbn in Hbody; discriminate.
Qed.

(** A value loop that returns has met only children tagged 11 that parse. *)
Lemma valueLoop_returns xs result result' :
  forRange xs valueBody result = Ok result' ->
  valuesParse xs.
Proof.
  unfold valuesParse.
  revert result; induction xs as [|c xs IH]; intros result Hrun.
  - constructor.
  - cbn in Hrun.
    destruct (valueBody c result) as [r1|p] eqn:Hbody; cbn in Hrun;
      [|discriminate].
    constructor; [|now apply (IH r1)].
    intros Ht Hnone. unfold valueBody in Hbody.
    rewrite Ht, Hnone in Hbody. discriminate.
Qed.

(** The three ways lines 128-156 return. *)
Lemma interpretResponse_returns packet result failure :
  interpretResponse packet emptyResult = Ok (result, failure) ->
  (result = None /\
   exists response,
     nth_error (Children packet) 1 = Some response /\
     Tag response <> ApplicationExtendedResponse /\
     failure = Some (NewError ErrorUnexpectedResponse
                    (unexpectedResponse (Tag response)))) \/
  (exists res err,
     result = Some res /\ failure = Some err /\
     GetLDAPError packet = Some err /\ GeneratedPassword res = "") \/
  (exists res,
     result = Some res /\ failure = None /\
     GetLDAPError packet = None /\ Referral res = "").
Proof.
  unfold interpretResponse, index.
  destruct (nth_error (Children packet) 1) as [response|] eqn:Hnth; cbn;
    [|discriminate].
  intros H.
  destruct (Z.eqb_spec (Tag response) ApplicationExtendedResponse) as [Ht|Ht].
  - destruct (GetLDAPError packet) as [err|].
    + right; left.
      destruct (IsErrorWithCode err LDAPResultReferral).
      * destruct (forRange _ referralBody _) as [res|] eqn:Hloop; cbn in H;
          [|discriminate].
        injection H as <- <-. exists res, err. repeat split.
        apply (referralLoop_GeneratedPassword _ _ _ Hloop).
      * injection H as <- <-. exists emptyResult, err. repeat split.
    + right; right.
      destruct (forRange _ valueBody _) as [res|] eqn:Hloop; cbn in H;
        [|discriminate].
      injection H as <- <-. exists res. repeat split.
      apply (valueLoop_Referral _ _ _ Hloop).
  - injection H as <- <-. left. split; [reflexivity|]. exists response. auto.
Qed.

(** The ways [PasswordModify] returns. *)
Lemma PasswordModify_returns l r result failure :
  fst (PasswordModify l r) = Ok (result, failure) ->
  (result = None /\ exists err, failure = Some err) \/
  (exists res err packet,
     result = Some res /\ failure = Some err /\ delivered l r packet /\
     GetLDAPError packet = Some err /\ GeneratedPassword res = "") \/
  (exists res,
     result = Some res /\ failure = None /\ Referral res = "").
Proof.
  intros H.
  destruct (PasswordModify_delivered_or_rejected l r) as [[packet Hd]|[err He]].
  - rewrite (PasswordModify_delivered _ _ _ Hd) in H.
    destruct (interpretResponse_returns _ _ _ H)
      as [(-> & response & _ & _ & ->)
         |[(res & err & -> & -> & Herr & Hg)|(res & -> & -> & _ & Hr)]].
    + left. eauto.
    + right; left. exists res, err, packet. auto.
    + right; right. eauto.
  - rewrite He in H. injection H as <- <-. left. eauto.
Qed.

(** X5.  [PasswordModify] never returns a nil result with a nil error: a nil
    result always comes with an error. *)
Theorem PasswordModify_nil_result_has_error l r failure :
  fst (PasswordModify l r) = Ok (None, failure) ->
  exists err, failure = Some err.
Proof.
  intros H.
  destruct (PasswordModify_returns _ _ _ _ H)
    as [[_ Herr]|[(res & err & packet & Hres & _)|(res & Hres & _)]];
    [exact Herr | discriminate Hres | discriminate Hres].
Qed.

(** X6.  A result that [PasswordModify] returns together with an error was
    made on a delivered response that the classifier reported as failed; the
    error is the classifier's and the result carries no generated password:
    the response value is not read on a failure. *)
Theorem PasswordModify_failure_has_no_generated_password l r res err :
  fst (PasswordModify l r) = Ok (Some res, Some err) ->
  GeneratedPassword res = "" /\
  exists packet, delivered l r packet /\ GetLDAPError packet = Some err.
Proof.
  intros H.
  destruct (PasswordModify_returns _ _ _ _ H)
    as [[Hres _]|[(res' & err0 & packet & Hres & Herr & Hd & Hc & Hg)
                 |(res' & _ & Herr & _)]];
    [discriminate Hres| |discriminate Herr].
  injection Hres as <-. injection Herr as <-. eauto.
Qed.

(** X7.  No result of [PasswordModify] carries both a generated password and
    a referral. *)
Theorem PasswordModify_result_is_exclusive l r res failure :
  fst (PasswordModify l r) = Ok (Some res, failure) ->
  GeneratedPassword res = "" \/ Referral res = "".
Proof.
  intros H.
  destruct (PasswordModify_returns _ _ _ _ H)
    as [[Hres _]|[(res' & err0 & packet & Hres & _ & _ & _ & Hg)
                 |(res' & Hres & _ & Hr)]];
    [discriminate Hres| |]; injection Hres as <-; auto.
Qed.

(** X8.  [PasswordModify] returns (a result, an error or both) on a
    delivered response only when the envelope is interpretable: it has a
    second child and, that child being an extended response, every child
    tagged 3 carries a string when the classifier reports a referral, and
    the content of every child tagged 11 parses when it reports a success.
    A delivered response that is not so ends in a panic. *)
Theorem PasswordModify_returns_only_if_interpretable
        l r packet result failure :
  delivered l r packet ->
  fst (PasswordModify l r) = Ok (result, failure) ->
  interpretable packet.
Proof.
  intros Hd H. rewrite (PasswordModify_delivered _ _ _ Hd) in H.
  unfold interpretResponse, index in H.
  destruct (nth_error (Children packet) 1) as [response|] eqn:Hnth;
    cbn in H; [|discriminate].
  exists response. split; [exact Hnth|]. intros Ht.
  rewrite Ht, Z.eqb_refl in H.
  destruct (GetLDAPError packet) as [err|].
  - intros Hcode. rewrite Hcode in H.
    destruct (forRange _ referralBody _) as [res|] eqn:Hloop;
      [|discriminate].
    apply (referralLoop_returns _ _ _ Hloop).
  - destruct (forRange _ valueBody _) as [res|] eqn:Hloop;
      [|discriminate].
    apply (valueLoop_returns _ _ _ Hloop).
Qed.

(** X9.  On a referral, the first child tagged 3 that carries no string in a
    first child makes the call panic: with an index out of range when it has
    no child, with a failed type assertion when its first child's value is
    not a string. *)
Theorem PasswordModify_malformed_referral_panics
        l r packet response err pre c post :
  delivered l r packet ->
  nth_error (Children packet) 1 = Some response ->
  Tag response = ApplicationExtendedResponse ->
  GetLDAPError packet = Some err ->
  IsErrorWithCode err LDAPResultReferral = true ->
  Children response = pre ++ c :: post ->
  referralsCarryStrings pre ->
  Tag c = 3 ->
  firstString c = None ->
  fst (PasswordModify l r) =
    Panic (match Children c with
           | [] => IndexOutOfRange
           | _ :: _ => TypeAssertion
           end).
Proof.
  intros Hd Hnth Ht Herr Hcode Heq Hpre Hc Hnone.
  rewrite (PasswordModify_extended _ _ _ _ Hd Hnth Ht), Herr, Hcode, Heq.
  rewrite forRange_app.
  destruct (referralLoop_runs pre emptyResult Hpre) as (r1 & -> & _); cbn.
  unfold referralBody. rewrite Hc; cbn.
  unfold firstString in Hnone.
  destruct (Children c) as [|first rest]; [reflexivity|]. cbn.
  destruct (Value first); try reflexivity. discriminate Hnone.
Qed.

(** X10.  On a success, the first child tagged 11 whose content
    [DecodePacket] gives up on, returning nil, makes the call panic with a
    nil dereference at line 148. *)
Theorem PasswordModify_unparsed_value_panics
        l r packet response pre c post :
  delivered l r packet ->
  nth_error (Children packet) 1 = Some response ->
  Tag response = ApplicationExtendedResponse ->
  GetLDAPError packet = None ->
  Children response = pre ++ c :: post ->
  valuesParse pre ->
  Tag c = 11 ->
  DecodePacket (Data c) = None ->
  fst (PasswordModify l r) = Panic NilDereference.
Proof.
  intros Hd Hnth Ht Herr Heq Hpre Hc Hnone.
  rewrite (PasswordModify_extended _ _ _ _ Hd Hnth Ht), Herr, Heq.
  rewrite forRange_app.
  destruct (valueLoop_runs pre emptyResult Hpre) as (r1 & -> & _); cbn.
  rewrite (valueBody_nil c r1 Hc Hnone). reflexivity.
Qed.

(** X11.  A generated password, once set, is not taken back: when a child
    tagged 11 holds a tree of one child tagged 0, the children tagged 11
    after it that hold trees of another shape leave [GeneratedPassword] as
    that child set it. *)
Theorem PasswordModify_generated_password_survives
        l r packet response pre value post tree only :
  delivered l r packet ->
  nth_error (Children packet) 1 = Some response ->
  Tag response = ApplicationExtendedResponse ->
  GetLDAPError packet = None ->
  Children response = pre ++ value :: post ->
  valuesParse pre ->
  valuesOfOtherShape post ->
  Tag value = 11 ->
  DecodePacket (Data value) = Some tree ->
  Children tree = [only] ->
  Tag only = 0 ->
  fst (PasswordModify l r) =
    Ok (Some {| GeneratedPassword := DecodeString (Data only);
                Referral := "" |}, None).
Proof.
  intros Hd Hnth Ht Herr Heq Hpre Hpost Hv Htree Honly H0.
  rewrite (PasswordModify_extended _ _ _ _ Hd Hnth Ht), Herr, Heq.
  rewrite forRange_app.
  destruct (valueLoop_runs pre emptyResult Hpre) as (r1 & -> & Hr); cbn.
  rewrite (valueBody_hit value tree only r1 Hv Htree Honly H0); cbn.
  rewrite (valueLoop_no_shape post _ Hpost), Hr. reflexivity.
Qed.

End Outcomes.

(** ** Further properties: the request *)

Section Request.
Context {E : Env}.

(** X12.  Whatever the request, [encode] returns an application-class
    constructed packet tagged [ApplicationExtendedRequest] with exactly two
    children: the request name, a context-class primitive tagged 0 whose
    value is the password modify OID 1.3.6.1.4.1.4203.1.11.1, and the
    request value, a context-class primitive tagged 1 without a value of its
    own, whose only child is the sequence of the fields. *)
Theorem encode_request_envelope (r : PasswordModifyRequest) :
  exists name value sequence,
    Children (fst (encode r)) = [name; value] /\
    ClassType (fst (encode r)) = ClassApplication /\
    TagType (fst (encode r)) = TypeConstructed /\
    Tag (fst (encode r)) = ApplicationExtendedRequest /\
    scalar name =
      (ClassContext, TypePrimitive, 0, VString "1.3.6.1.4.1.4203.1.11.1", []) /\
    ClassType value = ClassContext /\
    TagType value = TypePrimitive /\
    Tag value = 1 /\
    Value value = VNil /\
    Children value = [sequence] /\
    innerSequence (fst (encode r)) = Some sequence.
Proof.
  unfold encode, innerSequence.
  destruct (negb (UserIdentity r =? "")%string),
           (negb (OldPassword r =? "")%string),
           (negb (NewPassword r =? "")%string);
    cbn -[list_byte_of_string];
    do 3 eexists; repeat split.
Qed.

(** X13.  The buffers of the packets [encode] builds hold the serialisation
    of their children, complete and in order: every packet is appended to its
    parent only after its own children were appended to it.  The sequence's
    buffer is the serialisations of the field children one after the other,
    the request value's buffer is the serialisation of the sequence, the
    request's buffer is that of the name followed by that of the value; each
    field child's buffer is the bytes of its string; and the buffer of the
    LDAP message of lines 87-94 is the serialisation of the message id
    followed by that of the request. *)
Theorem encode_buffers_hold_serialisations (r : PasswordModifyRequest) :
  exists name value sequence,
    Children (fst (encode r)) = [name; value] /\
    Children value = [sequence] /\
    Data sequence = List.concat (map Bytes (Children sequence)) /\
    Data value = Bytes sequence /\
    Data (fst (encode r)) = Bytes name ++ Bytes value /\
    Forall (fun c => exists s,
                Value c = VString s /\ Data c = list_byte_of_string s)
           (name :: Children sequence) /\
    forall messageID,
      Data (ldapRequest messageID r) =
        Bytes (NewInteger ClassUniversal TypePrimitive TagInteger messageID
                          "MessageID")
        ++ Bytes (fst (encode r)).
Proof.
  unfold ldapRequest, encode.
  destruct (negb (UserIdentity r =? "")%string),
           (negb (OldPassword r =? "")%string),
           (negb (NewPassword r =? "")%string);
    cbn -[list_byte_of_string];
    do 3 eexists;
    (split; [reflexivity|]); (split; [reflexivity|]);
    cbn -[list_byte_of_string]; rewrite ?app_nil_r, <- ?app_assoc;
    repeat (split; [reflexivity|]);
    (split; [|reflexivity]);
    repeat (apply Forall_cons; [eexists; split; reflexivity|]);
    apply Forall_nil.
Qed.

(** X14.  [encode] is injective: two requests with the same packet have the
    same three fields. *)
Theorem encode_injective (r1 r2 : PasswordModifyRequest) :
  fst (encode r1) = fst (encode r2) -> r1 = r2.
Proof.
  destruct r1 as [u1 o1 n1], r2 as [u2 o2 n2].
  unfold encode; cbn [UserIdentity OldPassword NewPassword fst].
  destruct u1 as [|ua1 us1], o1 as [|oa1 os1], n1 as [|na1 ns1],
           u2 as [|ua2 us2], o2 as [|oa2 os2], n2 as [|na2 ns2];
    rewrite ?eqb_empty_false; cbn -[list_byte_of_string];
    intros H;
    apply (f_equal (fun request =>
                      option_map (fun sequence => map scalar (Children sequence))
                                 (innerSequence request))) in H;
    unfold scalar, NewString in H; cbn in H; congruence.
Qed.

End Request.

(** ** The further properties on the scripted connections *)

Section OnTheFaultyConnections.
Import Scripted Faulty.
#[local] Existing Instance env.

Lemma sent_answering (l : @Conn env) (r : PasswordModifyRequest) :
  sent l r =
    (inl {| id := connNextID l; responses := connReply l |},
     {| connDebug := connDebug l; connNextID := connNextID l + 1;
        connReply := connReply l; connFinished := connFinished l |}).
Proof.
  unfold sent; cbn. do 2 f_equal. f_equal. lia.
Qed.

Lemma PasswordModify_undelivered_witness :
  exists err, fst (PasswordModify closed request) = Ok (None, Some err).
Proof.
  apply (PasswordModify_undelivered_is_an_error closed request).
  intros packet (msgCtx & packetResponse & l' & Hsent & Hresp & _).
  cbn in Hsent. injection Hsent as <- _. discriminate Hresp.
Defined.

Lemma PasswordModify_send_failure_witness :
  @PasswordModify refusing unsent request =
    (Ok (None, Some (ldapError 200 (errorString "ldap: connection closed"))),
     {| connDebug := false; connNextID := 2; connReply := None;
        connFinished := [] |}).
Proof.
  apply (@PasswordModify_send_failure refusing unsent request).
  reflexivity.
Defined.

Lemma PasswordModify_finishes_message_witness :
  fst (PasswordModify (answering shortEnvelope) request) = Panic IndexOutOfRange /\
  snd (PasswordModify (answering shortEnvelope) request) =
    {| connDebug := false; connNextID := 2;
       connReply := Some (Some shortEnvelope, None); connFinished := [1] |}.
Proof.
  split; [reflexivity|].
  apply (PasswordModify_finishes_message
           (answering shortEnvelope) request
           {| id := 1; responses := Some (Some shortEnvelope, None) |}
           {| connDebug := false; connNextID := 2;
              connReply := Some (Some shortEnvelope, None);
              connFinished := [] |}).
  reflexivity.
Defined.

Lemma PasswordModify_exchange_failures_witness :
  fst (PasswordModify closed request) =
    Ok (None, Some (ldapError 200 (errorString "ldap: response channel closed")))
  /\
  fst (PasswordModify (unreadable None) request) =
    Ok (None, Some (errorString "unable to read"))
  /\
  fst (PasswordModify (debugging shortEnvelope) request) =
    Ok (None,
        Some (ldapError 203
                (errorString "ldap: cannot process packet to add descriptions"))).
Proof.
  split; [|split].
  - exact (proj1 (PasswordModify_exchange_failures
                    closed request _ _ (sent_answering _ _)) eq_refl).
  - exact (proj1 (proj2 (PasswordModify_exchange_failures
                           (unreadable None) request
                           _ _ (sent_answering _ _)))
                 _ _ _ eq_refl eq_refl).
  - exact (proj2 (proj2 (PasswordModify_exchange_failures
                           (debugging shortEnvelope) request
                           _ _ (sent_answering _ _)))
                 _ shortEnvelope _ eq_refl eq_refl eq_refl eq_refl).
Defined.

Lemma PasswordModify_nil_result_witness :
  exists err,
    Some (ldapError 205 (errorString "unexpected Response: 1")) = Some err.
Proof.
  apply (PasswordModify_nil_result_has_error (answering bindEnvelope) request).
  reflexivity.
Defined.

Lemma PasswordModify_failure_has_no_generated_password_witness :
  GeneratedPassword {| GeneratedPassword := ""; Referral := "ldap://a" |} = "" /\
  exists packet,
    delivered (answering referralEnvelope) request packet /\
    GetLDAPError packet = Some (ldapError 10 (errorString "LDAP Result")).
Proof.
  apply (PasswordModify_failure_has_no_generated_password
           (answering referralEnvelope) request).
  reflexivity.
Defined.

Lemma PasswordModify_result_is_exclusive_witness :
  GeneratedPassword {| GeneratedPassword := "Gener@ted1"; Referral := "" |} = ""
  \/ Referral {| GeneratedPassword := "Gener@ted1"; Referral := "" |} = "".
Proof.
  apply (PasswordModify_result_is_exclusive
           (answering generatedEnvelope) request _ None).
  reflexivity.
Defined.

Lemma PasswordModify_returns_only_if_interpretable_witness :
  interpretable generatedEnvelope.
Proof.
  apply (PasswordModify_returns_only_if_interpretable
           (answering generatedEnvelope) request generatedEnvelope
           (Some {| GeneratedPassword := "Gener@ted1"; Referral := "" |})
           None).
  - apply answering_delivered.
  - reflexivity.
Defined.

Lemma PasswordModify_malformed_referral_witness :
  fst (PasswordModify (answering emptyReferralEnvelope) request)
    = Panic IndexOutOfRange /\
  fst (PasswordModify (answering integerReferralEnvelope) request)
    = Panic TypeAssertion.
Proof.
  split.
  - apply (PasswordModify_malformed_referral_panics
             (answering emptyReferralEnvelope) request emptyReferralEnvelope
             (extendedResponse 10 [referralElement []])
             (ldapError 10 (errorString "LDAP Result"))
             [enumerated 10; octetString ""; octetString ""]
             (referralElement []) []).
    + apply answering_delivered.
    + reflexivity.
    + reflexivity.
    + reflexivity.
    + reflexivity.
    + reflexivity.
    + repeat constructor; discriminate.
    + reflexivity.
    + reflexivity.
  - apply (PasswordModify_malformed_referral_panics
             (answering integerReferralEnvelope) request integerReferralEnvelope
             (extendedResponse 10
                [node ClassContext TypeConstructed 3 VNil [] [enumerated 7]])
             (ldapError 10 (errorString "LDAP Result"))
             [enumerated 10; octetString ""; octetString ""]
             (node ClassContext TypeConstructed 3 VNil [] [enumerated 7]) []).
    + apply answering_delivered.
    + reflexivity.
    + reflexivity.
    + reflexivity.
    + reflexivity.
    + reflexivity.
    + repeat constructor; discriminate.
    + reflexivity.
    + reflexivity.
Defined.

Lemma PasswordModify_unparsed_value_witness :
  fst (PasswordModify (answering emptyValueEnvelope) request)
    = Panic NilDereference.
Proof.
  apply (PasswordModify_unparsed_value_panics
           (answering emptyValueEnvelope) request emptyValueEnvelope
           (extendedResponse 0 [node ClassContext TypePrimitive 11 VNil [] []])
           [enumerated 0; octetString ""; octetString ""]
           (node ClassContext TypePrimitive 11 VNil [] []) []).
  - apply answering_delivered.
  - reflexivity.
  - reflexivity.
  - reflexivity.
  - reflexivity.
  - repeat constructor; discriminate.
  - reflexivity.
  - reflexivity.
Defined.

Lemma PasswordModify_generated_password_survives_witness :
  fst (PasswordModify (answering twoValuesEnvelope) request) =
    Ok (Some {| GeneratedPassword := "Gener@ted1"; Referral := "" |}, None).
Proof.
  apply (PasswordModify_generated_password_survives
           (answering twoValuesEnvelope) request twoValuesEnvelope
           (extendedResponse 0
              [responseValue (sequenceOf [contextString 0 "Gener@ted1"]);
               responseValue (sequenceOf [])])
           [enumerated 0; octetString ""; octetString ""]
           (responseValue (sequenceOf [contextString 0 "Gener@ted1"]))
           [responseValue (sequenceOf [])]
           (sequenceOf [contextString 0 "Gener@ted1"])
           (contextString 0 "Gener@ted1")).
  - apply answering_delivered.
  - reflexivity.
  - reflexivity.
  - reflexivity.
  - reflexivity.
  - repeat constructor; discriminate.
  - repeat constructor. intros _. eexists. split.
    + vm_compute; reflexivity.
    + intros only H; discriminate H.
  - reflexivity.
  - vm_compute; reflexivity.
  - reflexivity.
  - reflexivity.
Defined.

Lemma encode_injective_witness :
  NewPasswordModifyRequest "" "" "NewPass1" = request.
Proof.
  apply (encode_injective (NewPasswordModifyRequest "" "" "NewPass1") request).
  reflexivity.
Defined.

(** C4 fails as stated.  With two children tagged 3 the referral returned
    is the string of the last one, not of the first, although the first is a
    child tagged 3 of the response; and with a child tagged 3 that holds no
    URI after one that does, the call panics and returns nothing. *)
Lemma PasswordModify_referral_is_not_of_any_child :
  (GetLDAPError twoReferralsEnvelope
     = Some (ldapError 10 (errorString "LDAP Result")) /\
   IsErrorWithCode (ldapError 10 (errorString "LDAP Result")) LDAPResultReferral
     = true /\
   In (referralElement ["ldap://a"])
      (Children (extendedResponse 10
                   [referralElement ["ldap://a"]; referralElement ["ldap://b"]])) /\
   Tag (referralElement ["ldap://a"]) = 3 /\
   firstString (referralElement ["ldap://a"]) = Some "ldap://a" /\
   fst (PasswordModify (answering twoReferralsEnvelope) request) =
     Ok (Some {| GeneratedPassword := ""; Referral := "ldap://b" |},
         Some (ldapError 10 (errorString "LDAP Result"))) /\
   "ldap://b" <> "ldap://a") /\
  (GetLDAPError halfReferralEnvelope
     = Some (ldapError 10 (errorString "LDAP Result")) /\
   In (referralElement ["ldap://a"])
      (Children (extendedResponse 10
                   [referralElement ["ldap://a"]; referralElement []])) /\
   Tag (referralElement ["ldap://a"]) = 3 /\
   fst (PasswordModify (answering halfReferralEnvelope) request) =
     Panic IndexOutOfRange).
Proof.
  split.
  - repeat (split; [first [reflexivity | cbn; tauto]|]). discriminate.
  - repeat (split; [first [reflexivity | cbn; tauto]|]). reflexivity.
Qed.

(** C8 fails as stated.  On a success with two children tagged 11, the
    first holding one string tagged 0 and the second an empty sequence, the
    second, of another shape, does not give an empty [GeneratedPassword]:
    the first child's password stays; and on a success whose child tagged
    11 has a content that does not parse, the call panics and returns
    nothing. *)
Lemma PasswordModify_other_shape_is_not_always_empty :
  (GetLDAPError twoValuesEnvelope = None /\
   In (responseValue (sequenceOf []))
      (Children (extendedResponse 0
                   [responseValue (sequenceOf [contextString 0 "Gener@ted1"]);
                    responseValue (sequenceOf [])])) /\
   Tag (responseValue (sequenceOf [])) = 11 /\
   option_map Children (DecodePacket (Data (responseValue (sequenceOf []))))
     = Some [] /\
   fst (PasswordModify (answering twoValuesEnvelope) request) =
     Ok (Some {| GeneratedPassword := "Gener@ted1"; Referral := "" |}, None) /\
   "Gener@ted1" <> "") /\
  (GetLDAPError emptyValueEnvelope = None /\
   In (node ClassContext TypePrimitive 11 VNil [] [])
      (Children (extendedResponse 0
                   [node ClassContext TypePrimitive 11 VNil [] []])) /\
   fst (PasswordModify (answering emptyValueEnvelope) request) =
     Panic NilDereference).
Proof.
  split.
  - repeat (split; [first [reflexivity | cbn; tauto]|]). discriminate.
  - repeat (split; [first [reflexivity | cbn; tauto]|]). reflexivity.
Qed.

End OnTheFaultyConnections.
